(** * Reusable-Atomic-Workflows: the documentation generator

    A shallow embedding of the TypeScript sources

    - [src/lib/workflow-scanner.ts]  (the Collector: [getWorkflowDescription],
      [scanWorkflows]),
    - [src/lib/doc-generator.ts]     (the Renderer: [wrapText],
      [getCategoryByFilename], [categorizeWorkflow], [generateDocumentation]),
    - the earlier revision of the Renderer that classifies by keywords and
      locates the regions by their headings,

    followed by the properties of the specification that concern them. *)

From Stdlib Require Import List ZArith NArith QArith Lia Bool Ascii String
  Permutation.
Import ListNotations.

Local Open Scope Z_scope.
Local Open Scope list_scope.

(* ================================================================== *)
(** * JavaScript strings

    A JavaScript string is a finite sequence of UTF-16 code units; [length],
    [substring], [indexOf] and the like count code units.  Literals of the
    sources that are pure ASCII are written with [lit]; the few non-ASCII
    glyphs are given by their code units. *)
(* ================================================================== *)

Module JS.

Definition jsstring := list N.

Definition lit (s : string) : jsstring :=
  map N_of_ascii (list_ascii_of_string s).
Arguments lit s%_string.

Definition length (s : jsstring) : Z := Z.of_nat (List.length s).

Fixpoint eqb (s t : jsstring) : bool :=
  match s, t with
  | [], [] => true
  | c :: s', d :: t' => N.eqb c d && eqb s' t'
  | _, _ => false
  end.

(** [ToBoolean] of a string: the empty string is the only falsy one. *)
Definition truthy (s : jsstring) : bool :=
  match s with [] => false | _ :: _ => true end.

(** [a || b] on strings. *)
Definition or_else (a b : jsstring) : jsstring :=
  if truthy a then a else b.

(** An index argument clamped into [0 .. length s], as a count of code
    units. *)
Definition clamp (s : jsstring) (i : Z) : nat :=
  Nat.min (Z.to_nat i) (List.length s).

(** [s.substring(a, b)]: both ends are clamped and swapped when [a > b]. *)
Definition substring (s : jsstring) (a b : Z) : jsstring :=
  let a' := clamp s a in
  let b' := clamp s b in
  firstn (Nat.max a' b' - Nat.min a' b') (skipn (Nat.min a' b') s).

(** [s.substring(a)]. *)
Definition substringFrom (s : jsstring) (a : Z) : jsstring :=
  skipn (clamp s a) s.

(** [s.startsWith(p)]. *)
Fixpoint startsWith (s p : jsstring) {struct p} : bool :=
  match p, s with
  | [], _ => true
  | c :: p', d :: s' => N.eqb c d && startsWith s' p'
  | _ :: _, [] => false
  end.

(** [s.indexOf(pat)]: the least index at which [pat] occurs, [-1] if none. *)
Fixpoint indexOf_from (s pat : jsstring) (i : Z) : Z :=
  if startsWith s pat then i
  else match s with
       | [] => -1
       | _ :: s' => indexOf_from s' pat (i + 1)
       end.

Definition indexOf (s pat : jsstring) : Z := indexOf_from s pat 0.

(** [s.includes(pat)]. *)
Definition includes (s pat : jsstring) : bool :=
  negb (indexOf s pat =? -1).

(** [s.lastIndexOf(pat, pos)]: the greatest index [k <= pos] at which [pat]
    occurs, where [pos] is first clamped into [0 .. length s - length pat];
    [-1] if none. *)
Fixpoint lastIndexOf_from (s pat : jsstring) (i start best : Z) : Z :=
  let best' := if (i <=? start) && startsWith s pat then i else best in
  match s with
  | [] => best'
  | _ :: s' => lastIndexOf_from s' pat (i + 1) start best'
  end.

Definition lastIndexOf (s pat : jsstring) (pos : Z) : Z :=
  let start := Z.min (Z.max pos 0) (length s - length pat) in
  lastIndexOf_from s pat 0 start (-1).

(** White space and line terminators, the code units [trim] removes. *)
Definition isWhiteSpace (c : N) : bool :=
  ((9 <=? c) && (c <=? 13) || (c =? 32) || (c =? 160) || (c =? 5760)
   || ((8192 <=? c) && (c <=? 8202)) || (c =? 8232) || (c =? 8233)
   || (c =? 8239) || (c =? 8287) || (c =? 12288) || (c =? 65279))%N.

Fixpoint trimStart (s : jsstring) : jsstring :=
  match s with
  | [] => []
  | c :: s' => if isWhiteSpace c then trimStart s' else s
  end.

Definition trimEnd (s : jsstring) : jsstring := rev (trimStart (rev s)).

Definition trim (s : jsstring) : jsstring := trimEnd (trimStart s).

(** [s.split(sep)] for a separator that is one code unit out of a class
    (a one-character string, or a character class such as [/[/\\]/]).  The
    result is never empty. *)
Fixpoint splitBy (sep : N -> bool) (s : jsstring) : list jsstring :=
  match s with
  | [] => [[]]
  | c :: s' =>
      if sep c then [] :: splitBy sep s'
      else match splitBy sep s' with
           | [] => [[c]]
           | seg :: segs => (c :: seg) :: segs
           end
  end.

(** [s.split(pat)] for a non-empty pattern string: the occurrences are
    taken from left to right and do not overlap; [skip] counts the code
    units of an occurrence still to be passed over. *)
Fixpoint split_go (pat s : jsstring) (skip : nat) : list jsstring :=
  match s with
  | [] => [[]]
  | c :: s' =>
      match skip with
      | S k => split_go pat s' k
      | O =>
          if startsWith s pat then [] :: split_go pat s' (List.length pat - 1)
          else match split_go pat s' O with
               | [] => [[c]]
               | seg :: segs => (c :: seg) :: segs
               end
      end
  end.

Definition split (s pat : jsstring) : list jsstring := split_go pat s O.

(** [segs.join(sep)]. *)
Fixpoint join (sep : jsstring) (segs : list jsstring) : jsstring :=
  match segs with
  | [] => []
  | [seg] => seg
  | seg :: segs' => seg ++ sep ++ join sep segs'
  end.

(** [s.replace(pat, repl)] with a string pattern: the first occurrence only
    ([repl] holds no [$] pattern in these sources). *)
Definition replace (s pat repl : jsstring) : jsstring :=
  let i := indexOf s pat in
  if i =? -1 then s
  else substring s 0 i ++ repl ++ substringFrom s (i + length pat).

(** [s.replace(/c/g, d)] for single code units. *)
Definition replaceAllChar (s : jsstring) (c d : N) : jsstring :=
  map (fun x => if N.eqb x c then d else x) s.

(** ASCII letters compared without regard to case, which is how a regular
    expression with the [i] flag (and no [u] flag) compares a pattern letter
    of the ASCII range. *)
Definition upperAscii (c : N) : N :=
  if ((97 <=? c) && (c <=? 122))%N then (c - 32)%N else c.

Definition lowerAscii (c : N) : N :=
  if ((65 <=? c) && (c <=? 90))%N then (c + 32)%N else c.

Fixpoint startsWithCI (s p : jsstring) {struct p} : bool :=
  match p, s with
  | [], _ => true
  | c :: p', d :: s' => N.eqb (upperAscii c) (upperAscii d) && startsWithCI s' p'
  | _ :: _, [] => false
  end.

(** Decimal numeral of an index, as [String(i)] gives it. *)
Fixpoint digits (fuel : nat) (n : N) (acc : jsstring) : jsstring :=
  match fuel with
  | O => acc
  | S fuel' =>
      let acc' := (48 + n mod 10)%N :: acc in
      if (n <? 10)%N then acc' else digits fuel' (n / 10)%N acc'
  end.

Definition ofIndex (i : nat) : jsstring :=
  digits (S i) (N.of_nat i) [].

End JS.

Import JS.

(* ================================================================== *)
(** * Values produced by the YAML parser, exceptions, the outside world *)
(* ================================================================== *)

Module Runtime.

(** JavaScript numbers, as far as the program looks at them (truthiness). *)
Variant number :=
  | NaN
  | Infinity (negative : bool)
  | Finite (q : Q).

(** What [yaml.parse] can return, plus [undefined] for absent properties.
    The properties of an object are listed in the order [Object.keys]
    enumerates them; a key occurs once. *)
#[warnings="-register-all"] Inductive value :=
  | VUndefined
  | VNull
  | VBool (b : bool)
  | VNumber (x : number)
  | VString (s : jsstring)
  | VArray (items : list value)
  | VObject (props : list (jsstring * value)).

Variant error :=
  | TypeError (what : string)
  | ExternalError (message : jsstring).

Inductive result (A : Type) :=
  | Ok (a : A)
  | Throw (e : error).
Arguments Ok {A} a.
Arguments Throw {A} e.

Definition bind {A B : Type} (c : result A) (k : A -> result B) : result B :=
  match c with
  | Ok a => k a
  | Throw e => Throw e
  end.

Definition truthy (v : value) : bool :=
  match v with
  | VUndefined | VNull => false
  | VBool b => b
  | VNumber NaN => false
  | VNumber (Infinity _) => true
  | VNumber (Finite q) => negb (Qeq_bool q 0)
  | VString s => JS.truthy s
  | VArray _ | VObject _ => true
  end.

Fixpoint lookup (key : jsstring) (props : list (jsstring * value)) : value :=
  match props with
  | [] => VUndefined
  | (k, v) :: props' => if JS.eqb k key then v else lookup key props'
  end.

(** [o.key] for the property names the program reads ([name], [on],
    [workflow_call], [inputs], [secrets], [outputs]): none of them is
    defined on a built-in prototype, so primitives and arrays answer
    [undefined]; reading a property of [undefined] or [null] throws. *)
Definition getField (o : value) (key : jsstring) : result value :=
  match o with
  | VUndefined | VNull => Throw (TypeError "Cannot read properties of undefined or null")
  | VObject props => Ok (lookup key props)
  | _ => Ok VUndefined
  end.

(** [o?.key]. *)
Definition getFieldOpt (o : value) (key : jsstring) : value :=
  match o with
  | VObject props => lookup key props
  | _ => VUndefined
  end.

(** [key in o]: throws unless [o] is an object; an array has none of the
    names above. *)
Definition hasIn (key : jsstring) (o : value) : result bool :=
  match o with
  | VObject props => Ok (existsb (fun kv => JS.eqb (fst kv) key) props)
  | VArray _ => Ok false
  | _ => Throw (TypeError "Cannot use 'in' operator to search for a key in a primitive")
  end.

(** [Object.keys(o)] for a truthy [o]. *)
Definition objectKeys (o : value) : list jsstring :=
  match o with
  | VObject props => map fst props
  | VArray items => map ofIndex (seq 0 (List.length items))
  | VString s => map ofIndex (seq 0 (List.length s))
  | _ => []
  end.

(** The collaborators of the program: the glob walk, the file reads, the
    YAML parser and the locale's collation. *)
Record World := {
  glob : jsstring -> result (list jsstring);
  readFile : jsstring -> result jsstring;
  parse : jsstring -> result value;
  localeCompare : jsstring -> jsstring -> Z
}.

End Runtime.

Import Runtime.

Notation "x <- c ;; k" := (bind c (fun x => k))
  (at level 61, c at next level, right associativity).

(* ================================================================== *)
(** * Node's [path] module (POSIX flavour), on the paths glob yields *)
(* ================================================================== *)

Module Path.

Definition isSlash (c : N) : bool := N.eqb c 47.
Definition isDot (c : N) : bool := N.eqb c 46.

Fixpoint dropWhile {A : Type} (p : A -> bool) (l : list A) : list A :=
  match l with
  | [] => []
  | x :: l' => if p x then dropWhile p l' else l
  end.

(** The last portion of a path; trailing separators are ignored. *)
Definition lastPortion (p : jsstring) : jsstring :=
  last (splitBy isSlash (rev (dropWhile isSlash (rev p)))) [].

Definition endsWith (s suffix : jsstring) : bool :=
  startsWith (rev s) (rev suffix).

(** [path.basename(p)] and [path.basename(p, suffix)]: the suffix is removed
    when the last portion ends with it and is longer than it. *)
Definition basename (p : jsstring) (suffix : option jsstring) : jsstring :=
  let base := lastPortion p in
  match suffix with
  | None => base
  | Some ext =>
      if JS.eqb ext p && JS.truthy ext then []
      else if JS.truthy ext && endsWith base ext
              && negb (JS.eqb base ext)
      then firstn (List.length base - List.length ext) base
      else base
  end.

(** Index of the last dot of [s], counted from [i]. *)
Fixpoint lastDot (s : jsstring) (i : nat) (best : option nat) : option nat :=
  match s with
  | [] => best
  | c :: s' => lastDot s' (S i) (if isDot c then Some i else best)
  end.

(** [path.extname(p)]: from the last dot of the last portion to its end;
    empty when there is no dot, when the last dot is the first character,
    or when the portion is [..]. *)
Definition extname (p : jsstring) : jsstring :=
  let base := lastPortion p in
  match lastDot base 0 None with
  | None => []
  | Some O => []
  | Some i => if JS.eqb base (lit "..") then [] else skipn i base
  end.

End Path.

(* ================================================================== *)
(** * The Collector: [src/lib/workflow-scanner.ts] *)
(* ================================================================== *)

Module WorkflowScanner.

Record Workflow := {
  name : jsstring;
  description : jsstring;
  filePath : jsstring;
  fileName : jsstring;
  inputs : value;
  secrets : value;
  outputs : value;
  isReusable : value
}.

Definition noDescription : jsstring := lit "No description provided.".

(** The [for] loop of [getWorkflowDescription]: [Some c] when it returns
    [c], [None] when it breaks or runs off the last line. *)
Fixpoint scanLines (lines : list jsstring) : option jsstring :=
  match lines with
  | [] => None
  | line :: rest =>
      let trimmed := trim line in
      if JS.truthy trimmed && negb (startsWith trimmed (lit "#")) then None
      else if startsWith trimmed (lit "#") then
        let comment := trim (skipn 1 trimmed) in
        if JS.truthy comment then Some comment else scanLines rest
      else scanLines rest
  end.

Definition getWorkflowDescription (rawWorkflow : jsstring) : jsstring :=
  match scanLines (splitBy (N.eqb 10) rawWorkflow) with
  | Some comment => comment
  | None => noDescription
  end.

(** One match of [/Reusable[ .]/i] at the head of [s]. *)
Definition matchesReusable (s : jsstring) : bool :=
  startsWithCI s (lit "Reusable")
  && match skipn 8 s with
     | c :: _ => N.eqb c 32 || N.eqb c 46
     | [] => false
     end.

(** [s.replace(/Reusable[ .]/i, '')]: the leftmost match is removed. *)
Fixpoint stripReusable (s : jsstring) : jsstring :=
  if matchesReusable s then skipn 9 s
  else match s with
       | [] => []
       | c :: s' => c :: stripReusable s'
       end.

(** [v.replace(/Reusable[ .]/i, '')] on what the parser delivered: only a
    string has a [replace] method. *)
Definition callReplace (v : value) : result jsstring :=
  match v with
  | VString s => Ok (stripReusable s)
  | VUndefined | VNull =>
      Throw (TypeError "Cannot read properties of undefined (reading 'replace')")
  | _ => Throw (TypeError "workflow.name.replace is not a function")
  end.

(** [workflow.on && 'workflow_call' in workflow.on]. *)
Definition reusableFlag (on : value) : result value :=
  if truthy on then
    b <- hasIn (lit "workflow_call") on ;; Ok (VBool b)
  else Ok on.

(** The body of the [try] block after the file has been read. *)
Definition workflowInfo (w : World) (filePath content : jsstring)
  : result Workflow :=
  workflow <- parse w content ;;
  title <- getField workflow (lit "name") ;;
  stripped <- callReplace title ;;
  on <- getField workflow (lit "on") ;;
  let call := getFieldOpt on (lit "workflow_call") in
  reusable <- reusableFlag on ;;
  Ok {| name := or_else stripped
                  (Path.basename filePath (Some (Path.extname filePath)));
        description := getWorkflowDescription content;
        filePath := filePath;
        fileName := Path.basename filePath None;
        inputs := getFieldOpt call (lit "inputs");
        secrets := getFieldOpt call (lit "secrets");
        outputs := getFieldOpt call (lit "outputs");
        isReusable := reusable |}.

Definition tryFile (w : World) (filePath : jsstring) : result Workflow :=
  content <- readFile w filePath ;;
  workflowInfo w filePath content.

(** [console.warn] lines of the Collector. *)
Variant warning := FailedToParse (filePath : jsstring) (e : error).

(** One turn of the [for ... of] loop with its [try]/[catch]: the record is
    pushed, or the warning is logged. *)
Definition scanStep (w : World) (st : list Workflow * list warning)
    (filePath : jsstring) : list Workflow * list warning :=
  match tryFile w filePath with
  | Ok info => (fst st ++ [info], snd st)
  | Throw e => (fst st, snd st ++ [FailedToParse filePath e])
  end.

Definition workflowsGlob : jsstring := lit ".github/workflows/*.{yml,yaml}".

(** [scanWorkflows()]: the promise's outcome and the console.  A rejection
    of the glob walk is not caught. *)
Definition scanWorkflows (w : World) : result (list Workflow) * list warning :=
  match glob w workflowsGlob with
  | Throw e => (Throw e, [])
  | Ok workflowFiles =>
      let st := fold_left (scanStep w) workflowFiles ([], []) in
      (Ok (fst st), snd st)
  end.

End WorkflowScanner.

Import WorkflowScanner.

(* ================================================================== *)
(** * The Renderer: [src/lib/doc-generator.ts] *)
(* ================================================================== *)

Module DocGenerator.

Definition nl : jsstring := [10%N].
Definition br : jsstring := lit "<br>".

(** [wrapText]: the recursion is on a shorter text only when [maxLength] is
    positive, so the embedding counts the calls; [None] is the recursion
    that does not end. *)
Fixpoint wrapText_fuel (fuel : nat) (text : jsstring) (maxLength : Z)
  : option jsstring :=
  match fuel with
  | O => None
  | S fuel' =>
      if JS.length text <=? maxLength then Some text
      else
        let lastSpaceIndex := lastIndexOf text (lit " ") (maxLength - 1) in
        if lastSpaceIndex =? -1 then
          option_map
            (fun rest => substring text 0 maxLength ++ br ++ rest)
            (wrapText_fuel fuel' (substringFrom text maxLength) maxLength)
        else
          option_map
            (fun rest => substring text 0 lastSpaceIndex ++ br ++ rest)
            (wrapText_fuel fuel' (substringFrom text (lastSpaceIndex + 1))
               maxLength)
  end.

Definition wrapText (text : jsstring) (maxLength : Z) : option jsstring :=
  wrapText_fuel (S (List.length text)) text maxLength.

(** The two call sites pass the widths 25 and 50, for which the recursion
    ends (lemma [wrapText_total] below). *)
Definition wrapped (text : jsstring) (maxLength : Z) : jsstring :=
  match wrapText text maxLength with
  | Some s => s
  | None => text
  end.

Definition backticked (key : jsstring) : jsstring :=
  lit "`" ++ key ++ lit "`".

Definition formatStackedWorkflowDetails (columns : value) : jsstring :=
  if negb (truthy columns)
     || (List.length (objectKeys columns) =? 0)%nat
  then lit "*None*"
  else join br (map backticked (objectKeys columns)).

Record Mapping := {
  prefixes : list jsstring;
  mappingCategory : jsstring;
  mappingIcon : jsstring
}.

Record Category := {
  category : jsstring;
  icon : jsstring
}.

Definition CATEGORY_MAPPINGS : list Mapping :=
  [ {| prefixes := [lit "_"];
       mappingCategory := lit "Internal";
       mappingIcon := [9881; 65039]%N |};
    {| prefixes := [lit "test-"];
       mappingCategory := lit "Testing";
       mappingIcon := [55358; 56810]%N |};
    {| prefixes := [lit "quality-"];
       mappingCategory := lit "Code Quality";
       mappingIcon := [55357; 56615]%N |};
    {| prefixes := [lit "deploy-"; lit "build-"; lit "publish-"; lit "release-"];
       mappingCategory := lit "Deployment";
       mappingIcon := [55357; 56960]%N |};
    {| prefixes := [lit "security-"; lit "scan-"; lit "audit-"];
       mappingCategory := lit "Security";
       mappingIcon := [55357; 56594]%N |};
    {| prefixes := [lit "util-"; lit "setup-"; lit "tool-"; lit "maintenance-"];
       mappingCategory := lit "Utilities";
       mappingIcon := [55357; 57056; 65039]%N |};
    {| prefixes := [lit "doc-"; lit "docs-"; lit "generate-"];
       mappingCategory := lit "Documentation";
       mappingIcon := [55357; 56538]%N |};
    {| prefixes := [lit "notify-"; lit "alert-"];
       mappingCategory := lit "Notifications";
       mappingIcon := [55357; 56596]%N |};
    {| prefixes := [lit "monitor-"; lit "check-"; lit "health-"];
       mappingCategory := lit "Monitoring";
       mappingIcon := [65533]%N |} ].

Definition miscellaneous : Category :=
  {| category := lit "Miscellaneous"; icon := [55357; 56589]%N |}.

(** [mapping.prefixes.some((prefix) => filename.startsWith(prefix))]. *)
Definition mappingMatches (filename : jsstring) (m : Mapping) : bool :=
  existsb (fun prefix => startsWith filename prefix) (prefixes m).

(** The [for ... of] loop of [getCategoryByFilename] over the mappings that
    are left, and the [return] after it. *)
Fixpoint categoryAmong (mappings : list Mapping) (filename : jsstring)
  : Category :=
  match mappings with
  | [] => miscellaneous
  | mapping :: rest =>
      if mappingMatches filename mapping
      then {| category := mappingCategory mapping;
              icon := mappingIcon mapping |}
      else categoryAmong rest filename
  end.

Definition getCategoryByFilename (filename : jsstring) : Category :=
  categoryAmong CATEGORY_MAPPINGS filename.

Definition isPathSeparator (c : N) : bool := N.eqb c 47 || N.eqb c 92.

(** The [filename] constant of [categorizeWorkflow]: the last portion of
    the path with the first [.yml] and then the first [.yaml] removed. *)
Definition filenameOf (workflow : Workflow) : jsstring :=
  or_else
    (replace
       (replace (last (splitBy isPathSeparator (filePath workflow)) [])
          (lit ".yml") [])
       (lit ".yaml") [])
    [].

Definition categorizeWorkflow (workflow : Workflow) : Category :=
  getCategoryByFilename (filenameOf workflow).

(** ** The folder tree *)

Definition tee : jsstring := [9500; 9472; 9472]%N.
Definition elbow : jsstring := [9492; 9472; 9472]%N.
Definition pipe : jsstring := [9474]%N.

Definition actionsGlob : jsstring := lit ".github/actions/*/".

(** [files.sort((a, b) => a.fileName.localeCompare(b.fileName))]: the sort
    is stable. *)
Fixpoint insertSorted (cmp : jsstring -> jsstring -> Z)
    (x : jsstring * jsstring) (l : list (jsstring * jsstring))
  : list (jsstring * jsstring) :=
  match l with
  | [] => [x]
  | y :: l' =>
      if cmp (snd x) (snd y) <=? 0 then x :: l
      else y :: insertSorted cmp x l'
  end.

Definition sortByFileName (cmp : jsstring -> jsstring -> Z)
    (l : list (jsstring * jsstring)) : list (jsstring * jsstring) :=
  fold_right (insertSorted cmp) [] l.

(** One turn of the loop over the sorted workflow files; the state is the
    text so far, [lastCategory] and the index [i]. *)
Definition workflowLine (w : World) (total : nat) (hasActions : bool)
    (st : jsstring * jsstring * nat) (file : jsstring * jsstring)
  : jsstring * jsstring * nat :=
  let '(structure, lastCategory, i) := st in
  let '(path, fileName) := file in
  let cat := getCategoryByFilename fileName in
  let isLastIndex := (i =? total - 1)%nat in
  let '(structure1, lastCategory1) :=
    if negb (JS.eqb (category cat) lastCategory) then
      let gap := if (0 <? i)%nat
                 then pipe ++ lit "   " ++ pipe ++ nl else [] in
      let hasMoreFiles := negb isLastIndex || hasActions in
      (structure ++ gap ++ pipe ++ lit "   "
         ++ (if hasMoreFiles then tee else elbow)
         ++ lit " # " ++ icon cat ++ lit " " ++ category cat ++ nl,
       category cat)
    else (structure, lastCategory) in
  let isLastFile := isLastIndex && negb hasActions in
  let prefix := if isLastFile then elbow else tee in
  let type :=
    match readFile w path with
    | Ok content =>
        if includes content (lit "workflow_call")
        then lit " (reusable)" else lit " (internal)"
    | Throw _ => []
    end in
  (structure1 ++ pipe ++ lit "   " ++ prefix ++ lit " " ++ fileName
     ++ type ++ nl,
   lastCategory1, S i).

(** One turn of the loop over the action directories. *)
Definition actionLines (total : nat) (st : jsstring * nat)
    (actionDir : jsstring) : jsstring * nat :=
  let '(structure, i) := st in
  if negb (JS.truthy actionDir) then (structure, S i)
  else
    let actionName := Path.basename actionDir None in
    let isLast := (i =? total - 1)%nat in
    (structure ++ lit "    " ++ (if isLast then elbow else tee) ++ lit " "
       ++ actionName ++ lit "/" ++ nl
       ++ lit "    " ++ (if isLast then lit " " else pipe)
       ++ lit "   " ++ elbow ++ lit " action.yml" ++ nl,
     S i).

Definition generateFolderStructure (w : World) : result jsstring :=
  workflowFiles <- glob w workflowsGlob ;;
  actionDirs <- glob w actionsGlob ;;
  let hasActions := (0 <? List.length actionDirs)%nat in
  let structure0 := lit "```" ++ nl ++ lit ".github/" ++ nl in
  let structure1 :=
    if (0 <? List.length workflowFiles)%nat then
      let sorted :=
        sortByFileName (localeCompare w)
          (map (fun p => (p, Path.basename p None)) workflowFiles) in
      fst (fst (fold_left
                  (workflowLine w (List.length sorted) hasActions)
                  sorted
                  (structure0 ++ tee
                     ++ lit " workflows/          # GitHub Actions Workflows"
                     ++ nl,
                   [], O)))
    else structure0 in
  let structure2 :=
    if hasActions then
      fst (fold_left (actionLines (List.length actionDirs)) actionDirs
             (structure1 ++ elbow
                ++ lit " actions/            # Custom Composite Actions"
                ++ nl,
              O))
    else structure1 in
  Ok (structure2 ++ lit "```").

(** ** The capability table *)

(** [categoriesMap]: a [Map] keeps its keys in the order of their first
    insertion. *)
Definition CategoriesMap := list (jsstring * (jsstring * list Workflow)).

Fixpoint addToCategory (cat : Category) (workflow : Workflow)
    (m : CategoriesMap) : CategoriesMap :=
  match m with
  | [] => [(category cat, (icon cat, [workflow]))]
  | (key, (ic, ws)) :: m' =>
      if JS.eqb key (category cat) then (key, (ic, ws ++ [workflow])) :: m'
      else (key, (ic, ws)) :: addToCategory cat workflow m'
  end.

Definition groupByCategory (reusableWorkflows : list Workflow)
  : CategoriesMap :=
  fold_left (fun m workflow =>
               addToCategory (categorizeWorkflow workflow) workflow m)
    reusableWorkflows [].

Definition autoGeneratedComment : jsstring :=
  lit "<!-- AUTO-GENERATED CONTENT - DO NOT EDIT MANUALLY -->" ++ nl
  ++ lit "<!-- This section is automatically updated by the documentation generator -->"
  ++ nl ++ nl.

Definition autoGeneratedCallout : jsstring :=
  lit "> " ++ [9889%N] ++ lit " **Auto-Generated** " ++ [9889%N] ++ nl
  ++ lit "> " ++ nl.

Definition tableRow (workflow : Workflow) : jsstring :=
  let workflowName := wrapped (name workflow) 25 in
  let descriptionCell :=
    if JS.truthy (description workflow)
       && negb (JS.eqb (description workflow) noDescription)
    then wrapped (description workflow) 50
    else lit "*No description provided*" in
  let inputsCell := formatStackedWorkflowDetails (inputs workflow) in
  let outputsCell := formatStackedWorkflowDetails (outputs workflow) in
  let secretsCell := formatStackedWorkflowDetails (secrets workflow) in
  let workflowLink :=
    lit "[" ++ workflowName ++ lit "](./"
    ++ replaceAllChar (filePath workflow) 92 47 ++ lit ")" in
  lit "| **" ++ workflowLink ++ lit "** | " ++ descriptionCell ++ lit " | "
  ++ inputsCell ++ lit " | " ++ outputsCell ++ lit " | " ++ secretsCell
  ++ lit " |" ++ nl.

Definition categoryTable (entry : jsstring * (jsstring * list Workflow))
  : jsstring :=
  let '(cat, (ic, workflows)) := entry in
  lit "### " ++ ic ++ lit " " ++ cat ++ nl ++ nl
  ++ lit "| Workflow Name | Description | Inputs | Outputs | Secrets |" ++ nl
  ++ lit "|:-------------|:------------|:-------|:--------|:--------|" ++ nl
  ++ List.concat (map tableRow workflows)
  ++ nl.

Definition renderWorkflowsSection (workflows : list Workflow) : jsstring :=
  let reusableWorkflows := filter (fun w => truthy (isReusable w)) workflows in
  let categoriesMap := groupByCategory reusableWorkflows in
  if (List.length categoriesMap =? 0)%nat
  then lit "No reusable workflows found." ++ nl
  else
    autoGeneratedComment ++ autoGeneratedCallout
    ++ lit "> This section is automatically updated whenever workflows are added, modified, or removed."
    ++ nl
    ++ lit "> The documentation reflects the current state of all reusable workflows in this repository."
    ++ nl ++ nl
    ++ List.concat (map categoryTable categoriesMap).

Definition renderFolderStructureSection (folderStructure : jsstring)
  : jsstring :=
  autoGeneratedComment ++ autoGeneratedCallout
  ++ lit "> This folder structure is automatically scanned and updated to reflect the current repository layout."
  ++ nl
  ++ lit "> It shows all workflows and actions with their types (reusable/internal)."
  ++ nl ++ nl
  ++ folderStructure.

(** ** The splice *)

Definition beginWorkflows : jsstring :=
  lit "<!-- BEGIN: Available Workflows Section -->".
Definition endWorkflows : jsstring :=
  lit "<!-- END: Available Workflows Section -->".
Definition beginFolderStructure : jsstring :=
  lit "<!-- BEGIN: Workflows Folder Structure Section -->".
Definition endFolderStructure : jsstring :=
  lit "<!-- END: Workflows Folder Structure Section -->".

(** Everything the generator emits between [beforeWorkflows] and
    [afterFolderStructure]. *)
Definition generatedBlock (workflowsSection folderStructureSection : jsstring)
  : jsstring :=
  beginWorkflows ++ nl
  ++ lit "## " ++ [55357; 56550]%N ++ lit " Available Workflows" ++ nl ++ nl
  ++ workflowsSection
  ++ endWorkflows ++ nl ++ nl
  ++ beginFolderStructure ++ nl
  ++ lit "## " ++ [55356; 57303; 65039]%N
  ++ lit " Workflows Folder Structure" ++ nl ++ nl
  ++ folderStructureSection
  ++ nl
  ++ endFolderStructure ++ nl ++ nl.

(** Lines 303-330: the new content of the document, from the old one and
    the two rendered sections. *)
Definition splice (existingContent workflowsSection folderStructureSection
                   : jsstring) : jsstring :=
  let availableWorkflowsStart := indexOf existingContent beginWorkflows in
  let folderStructureEnd := indexOf existingContent endFolderStructure in
  let beforeWorkflows := substring existingContent 0 availableWorkflowsStart in
  let afterFolderStructureEnd :=
    folderStructureEnd + JS.length endFolderStructure in
  let afterFolderStructure :=
    substringFrom existingContent afterFolderStructureEnd in
  beforeWorkflows
  ++ generatedBlock workflowsSection folderStructureSection
  ++ afterFolderStructure.

Definition readmePath : jsstring := lit "README.md".

(** [generateDocumentation(workflows)]: [Ok (Some c)] when [c] has been
    written to [README.md], [Throw e] when the promise is rejected before
    anything is written.  A document that cannot be read counts as empty. *)
Definition generateDocumentation (w : World) (workflows : list Workflow)
  : result (option jsstring) :=
  let existingContent :=
    match readFile w readmePath with
    | Ok content => content
    | Throw _ => []
    end in
  let workflowsSection := renderWorkflowsSection workflows in
  folderStructure <- generateFolderStructure w ;;
  let folderStructureSection :=
    renderFolderStructureSection folderStructure in
  Ok (Some (splice existingContent workflowsSection folderStructureSection)).

(** The world after a run: [README.md] holds what was written. *)
Definition afterRun (w : World) (outcome : result (option jsstring)) : World :=
  match outcome with
  | Ok (Some content) =>
      {| glob := glob w;
         readFile := fun p => if JS.eqb p readmePath then Ok content
                              else readFile w p;
         parse := parse w;
         localeCompare := localeCompare w |}
  | _ => w
  end.

End DocGenerator.

Import DocGenerator.

(* ================================================================== *)
(** * The earlier revision of the Renderer

    It classifies a record by keywords of its display name and locates the
    regions by their headings; the engine's [toLowerCase] is a parameter. *)
(* ================================================================== *)

Module LegacyDocGenerator.

(** The chain of [if (name.includes(..) || ..) return ..] statements of
    [categorizeWorkflow], in its order. *)
Definition KEYWORDS : list (list jsstring * jsstring) :=
  [ ([lit "test"; lit "unit"; lit "integration"; lit "e2e"; lit "spec"],
     lit "Testing");
    ([lit "format"; lit "lint"; lit "type"; lit "quality"; lit "prettier";
      lit "eslint"],
     lit "Code Quality");
    ([lit "deploy"; lit "build"; lit "publish"; lit "release"; lit "dist"],
     lit "Deployment");
    ([lit "security"; lit "scan"; lit "audit"; lit "vulnerability"; lit "cve"],
     lit "Security");
    ([lit "util"; lit "helper"; lit "setup"; lit "config"; lit "tool";
      lit "assign"; lit "label"; lit "stale"; lit "cleanup";
      lit "maintenance"],
     lit "Utilities");
    ([lit "doc"; lit "readme"; lit "changelog"; lit "generate"; lit "wiki"],
     lit "Documentation");
    ([lit "notify"; lit "slack"; lit "discord"; lit "email"; lit "webhook";
      lit "alert"],
     lit "Notifications");
    ([lit "monitor"; lit "health"; lit "check"; lit "status"; lit "ping";
      lit "uptime"],
     lit "Monitoring") ].

Fixpoint keywordCategory (rules : list (list jsstring * jsstring))
    (name : jsstring) : jsstring :=
  match rules with
  | [] => lit "Miscellaneous"
  | (keywords, cat) :: rest =>
      if existsb (fun keyword => includes name keyword) keywords then cat
      else keywordCategory rest name
  end.

Definition categorizeWorkflow (toLowerCase : jsstring -> jsstring)
    (workflow : Workflow) : jsstring :=
  keywordCategory KEYWORDS (toLowerCase (name workflow)).

Definition headingWorkflows : jsstring :=
  lit "## " ++ [55357; 56550]%N ++ lit " Available Workflows".
Definition headingFolderStructure : jsstring :=
  lit "## " ++ [55356; 57303; 65039]%N ++ lit " Folder Structure".

(** The end of [generateDocumentation]: [None] is the warning followed by
    [return], with nothing written. *)
Definition splice (existingContent workflowsSection folderStructureSection
                   : jsstring) : option jsstring :=
  let availableWorkflowsStart := indexOf existingContent headingWorkflows in
  let folderStructureStart := indexOf existingContent headingFolderStructure in
  if (availableWorkflowsStart =? -1) || (folderStructureStart =? -1) then None
  else
    let beforeWorkflows :=
      substring existingContent 0 availableWorkflowsStart in
    let afterFolderStructureHeader :=
      folderStructureStart
      + JS.length (headingFolderStructure ++ DocGenerator.nl ++ DocGenerator.nl) in
    let nextSectionMatch :=
      indexOf (substringFrom existingContent afterFolderStructureHeader)
        (DocGenerator.nl ++ lit "## ") in
    let folderStructureEnd :=
      if nextSectionMatch =? -1 then JS.length existingContent
      else afterFolderStructureHeader + nextSectionMatch in
    let afterFolderStructure :=
      substringFrom existingContent folderStructureEnd in
    Some (beforeWorkflows
          ++ headingWorkflows ++ DocGenerator.nl ++ DocGenerator.nl
          ++ workflowsSection
          ++ headingFolderStructure ++ DocGenerator.nl ++ DocGenerator.nl
          ++ folderStructureSection ++ DocGenerator.nl ++ DocGenerator.nl
          ++ afterFolderStructure).

End LegacyDocGenerator.

(* ================================================================== *)
(** * The specification's wording, for comparison with the code *)
(* ================================================================== *)

Module Spec.

(** Description extraction as the specification words it: the lines before
    the first non-blank non-comment line are scanned, and the first comment
    line among them with a non-empty body gives the description. *)
Definition isBlank (line : jsstring) : bool := negb (JS.truthy (trim line)).

Definition isCommentLine (line : jsstring) : bool :=
  startsWith (trim line) (lit "#").

Definition commentBody (line : jsstring) : jsstring :=
  trim (skipn 1 (trim line)).

Fixpoint takeWhile {A : Type} (p : A -> bool) (l : list A) : list A :=
  match l with
  | [] => []
  | x :: l' => if p x then x :: takeWhile p l' else []
  end.

Definition description_spec (raw : jsstring) : jsstring :=
  let scanned :=
    takeWhile (fun line => isBlank line || isCommentLine line)
      (splitBy (N.eqb 10) raw) in
  match find (fun line => isCommentLine line && JS.truthy (commentBody line))
          scanned with
  | Some line => commentBody line
  | None => noDescription
  end.

(** Classification as the specification words it: the prefix rules on the
    file name first, then the keywords of the lower-cased display name,
    then the default. *)
Definition classify_spec (toLowerCase : jsstring -> jsstring)
    (record : Workflow) : jsstring :=
  match find (mappingMatches (fileName record)) CATEGORY_MAPPINGS with
  | Some mapping => mappingCategory mapping
  | None =>
      match find (fun rule =>
                    existsb (fun keyword =>
                               includes (toLowerCase (name record)) keyword)
                      (fst rule))
              LegacyDocGenerator.KEYWORDS with
      | Some rule => snd rule
      | None => lit "Miscellaneous"
      end
  end.

(** The fixed category set. *)
Definition categories : list jsstring :=
  map mappingCategory CATEGORY_MAPPINGS ++ [lit "Miscellaneous"].


(** A wrapped text laid out as its segments: each one but the last is
    followed by a break marker, put either in place of a space ([true]) or
    between two characters of a run ([false]). *)
Fixpoint laidOut (segments : list (jsstring * bool)) (final : jsstring)
  : jsstring :=
  match segments with
  | [] => final
  | (seg, _) :: rest => seg ++ br ++ laidOut rest final
  end.

(** The text the segments come from. *)
Fixpoint original (segments : list (jsstring * bool)) (final : jsstring)
  : jsstring :=
  match segments with
  | [] => final
  | (seg, atSpace) :: rest =>
      seg ++ (if atSpace then lit " " else []) ++ original rest final
  end.

(** A segment cut at a space is shorter than the width; a segment cut out
    of a run has the width and holds no space. *)
Definition segmentOk (n : Z) (s : jsstring * bool) : Prop :=
  if snd s then JS.length (fst s) < n
  else JS.length (fst s) = n /\ ~ In 32%N (fst s).

(** A path as the glob [.github/workflows/*.{yml,yaml}] yields it: the
    directory, then a file name without separator that does not begin with
    a dot and ends in one of the two extensions. *)
Definition workflowsDir : jsstring := lit ".github/workflows/".

Definition matchesWorkflowsGlob (p : jsstring) : bool :=
  let file := skipn (List.length workflowsDir) p in
  startsWith p workflowsDir
  && negb (existsb Path.isSlash file)
  && negb (startsWith file (lit "."))
  && (Path.endsWith file (lit ".yml") || Path.endsWith file (lit ".yaml")).

(** The records and the warnings of a run, file by file. *)
Definition recordsOf (w : World) (files : list jsstring) : list Workflow :=
  flat_map (fun p => match tryFile w p with
                     | Ok info => [info]
                     | Throw _ => []
                     end) files.

Definition warningsOf (w : World) (files : list jsstring) : list warning :=
  flat_map (fun p => match tryFile w p with
                     | Ok _ => []
                     | Throw e => [FailedToParse p e]
                     end) files.

(** A file fails when it cannot be read, when the parser rejects it, or
    when a field the Collector needs cannot be accessed. *)
Definition fails (w : World) (p : jsstring) : bool :=
  match tryFile w p with
  | Ok _ => false
  | Throw _ => true
  end.

(** The file name of a globbed path without directory and extension. *)
Definition stemOf (p : jsstring) : jsstring :=
  let file := skipn (List.length workflowsDir) p in
  let ext := if Path.endsWith file (lit ".yaml") then 5%nat else 4%nat in
  firstn (List.length file - ext) file.

End Spec.

Import Spec.

(* ================================================================== *)
(** * Concrete repositories and documents *)
(* ================================================================== *)

Module Examples.

Definition enoent : error :=
  ExternalError (lit "ENOENT: no such file or directory").

Definition syntaxError : error :=
  ExternalError (lit "YAMLParseError: flow sequence without end").

(** A repository without workflow files and action directories whose
    [README.md] holds [readme]. *)
Definition emptyRepository (readme : jsstring) : World :=
  {| glob := fun _ => Ok [];
     readFile := fun p => if JS.eqb p readmePath then Ok readme
                          else Throw enoent;
     parse := fun _ => Ok VNull;
     localeCompare := fun _ _ => 0 |}.

(** The folder tree of such a repository. *)
Definition emptyTree : jsstring :=
  lit "```" ++ nl ++ lit ".github/" ++ nl ++ lit "```".

(** A document whose two regions are separated by other content. *)
Definition separatedDocument : jsstring :=
  lit "A" ++ beginWorkflows ++ lit "old table" ++ endWorkflows
  ++ lit "@"
  ++ beginFolderStructure ++ lit "old tree" ++ endFolderStructure ++ lit "Z".

(** A document written by hand, without any marker. *)
Definition handwrittenReadme : jsstring :=
  lit "# Handbook" ++ nl ++ nl
  ++ lit "Notes written by hand, without any marker comment." ++ nl.

(** A document with both regions in place. *)
Definition markedReadme : jsstring :=
  lit "# Workflows" ++ nl ++ nl
  ++ beginWorkflows ++ nl ++ endWorkflows ++ nl ++ nl
  ++ beginFolderStructure ++ nl ++ endFolderStructure ++ nl ++ nl
  ++ lit "## Quick Start" ++ nl.

(** A workflow file that declares no title. *)
Definition deployProdPath : jsstring := lit ".github/workflows/deploy-prod.yml".

Definition deployProdContent : jsstring :=
  lit "# Deploys to production" ++ nl
  ++ lit "on:" ++ nl ++ lit "  workflow_call:" ++ nl.

Definition callable : value :=
  VObject [(lit "workflow_call", VNull)].

Definition deployProdRepository (document : value) : World :=
  {| glob := fun pattern => if JS.eqb pattern workflowsGlob
                            then Ok [deployProdPath] else Ok [];
     readFile := fun p => if JS.eqb p deployProdPath then Ok deployProdContent
                          else Throw enoent;
     parse := fun _ => Ok document;
     localeCompare := fun _ _ => 0 |}.

(** A record whose file name has no category prefix and whose display name
    holds the keyword [lint]. *)
Definition lintWorkflow (displayName : jsstring) : Workflow :=
  {| name := displayName;
     description := noDescription;
     filePath := lit ".github/workflows/lint.yml";
     fileName := lit "lint.yml";
     inputs := VUndefined;
     secrets := VUndefined;
     outputs := VUndefined;
     isReusable := VBool true |}.

(** Five files the parser accepts and one it rejects. *)
Definition sixPaths : list jsstring :=
  [ lit ".github/workflows/test-unit.yml";
    lit ".github/workflows/quality-lint.yml";
    lit ".github/workflows/broken.yml";
    lit ".github/workflows/deploy-pages.yaml";
    lit ".github/workflows/docs-site.yml";
    lit ".github/workflows/util-labels.yml" ].

Definition titled (title : jsstring) (on : value) : value :=
  VObject [(lit "name", VString title); (lit "on", on)].

(** Each file holds its own path as a comment; the parser is given by the
    documents it delivers. *)
Definition sixFiles : World :=
  {| glob := fun pattern => if JS.eqb pattern workflowsGlob
                            then Ok sixPaths else Ok [];
     readFile := fun p => if existsb (JS.eqb p) sixPaths
                          then Ok (lit "# " ++ p) else Throw enoent;
     parse := fun content =>
       let p := skipn 2 content in
       if JS.eqb p (lit ".github/workflows/test-unit.yml")
       then Ok (titled (lit "Reusable Unit Tests Worker") callable)
       else if JS.eqb p (lit ".github/workflows/quality-lint.yml")
       then Ok (titled (lit "Lint Checker") callable)
       else if JS.eqb p (lit ".github/workflows/deploy-pages.yaml")
       then Ok (titled (lit "reusable.") callable)
       else if JS.eqb p (lit ".github/workflows/docs-site.yml")
       then Ok (titled (lit "Docs") (VObject [(lit "push", VNull)]))
       else if JS.eqb p (lit ".github/workflows/util-labels.yml")
       then Ok (VObject [(lit "name", VString (lit "Labels"))])
       else Throw syntaxError;
     localeCompare := fun _ _ => 0 |}.

End Examples.

Import Examples.

(* ================================================================== *)
(** * The cut of the earlier revision *)
(* ================================================================== *)

Module LegacyRendering.

(** [truncateText]: a text that does not fit is cut three code units before
    the limit and given an ellipsis. *)
Definition truncateText (text : jsstring) (maxLength : Z) : jsstring :=
  if JS.length text <=? maxLength then text
  else substring text 0 (maxLength - 3) ++ lit "...".

End LegacyRendering.

Import LegacyRendering.

(* ================================================================== *)
(** * The entry point: [src/generate-docs.ts] *)
(* ================================================================== *)

Module Main.

(** How the process ends: the function returns, or the [catch] block calls
    [process.exit(1)] with the error it logged. *)
Variant ending :=
  | Completed
  | Exit1 (e : error).

Record Run := {
  ended : ending;
  warnings : list warning;
  readme : option jsstring
}.

(** [writeFile(path, content)] as the run sees it: it succeeds or is
    rejected. *)
Definition Writer := jsstring -> jsstring -> result unit.

(** What the engine throws when calls are nested deeper than its stack
    allows. *)
Definition stackOverflow : error :=
  ExternalError (lit "RangeError: Maximum call stack size exceeded").

(** [wrapText] is the one recursive function of the program.  On an engine
    that allows [stack] nested calls of it, a call returns when its nest is
    no deeper, and throws otherwise. *)
Definition wrapsWithin (stack : nat) (text : jsstring) (maxLength : Z)
  : bool :=
  match wrapText_fuel stack text maxLength with
  | Some _ => true
  | None => false
  end.

(** The calls of [wrapText] for the row of a record: the name always, the
    description when it is wrapped. *)
Definition rowWithin (stack : nat) (workflow : Workflow) : bool :=
  wrapsWithin stack (name workflow) 25
  && (if JS.truthy (description workflow)
         && negb (JS.eqb (description workflow) noDescription)
      then wrapsWithin stack (description workflow) 50
      else true).

(** The table is rendered for the reusable records alone. *)
Definition rendersWithin (stack : nat) (workflows : list Workflow) : bool :=
  forallb (rowWithin stack)
    (filter (fun w => truthy (isReusable w)) workflows).

(** The scan, then the generation with the records of the scan, on an
    engine that allows [stack] nested calls of [wrapText]; [readme] is what
    has been written to [README.md].  An exception anywhere in the [try]
    block ends in the [catch] block: the rejection of a glob walk, the
    overflow of the stack while the table is rendered (which comes before
    the folder tree), the rejection of [writeFile]. *)
Definition main (w : World) (writeFile : Writer) (stack : nat) : Run :=
  match scanWorkflows w with
  | (Throw e, logged) =>
      {| ended := Exit1 e; warnings := logged; readme := None |}
  | (Ok workflows, logged) =>
      if negb (rendersWithin stack workflows)
      then {| ended := Exit1 stackOverflow; warnings := logged;
              readme := None |}
      else
        match generateDocumentation w workflows with
        | Throw e =>
            {| ended := Exit1 e; warnings := logged; readme := None |}
        | Ok None =>
            {| ended := Completed; warnings := logged; readme := None |}
        | Ok (Some content) =>
            match writeFile readmePath content with
            | Ok _ =>
                {| ended := Completed; warnings := logged;
                   readme := Some content |}
            | Throw e =>
                {| ended := Exit1 e; warnings := logged; readme := None |}
            end
        end
  end.

End Main.

Import Main.

(* ================================================================== *)
(** * Notions the further properties are stated with *)
(* ================================================================== *)

Module Expected.

(** The category name the table files a record under. *)
Definition categoryOf (workflow : Workflow) : jsstring :=
  category (categorizeWorkflow workflow).

(** The distinct elements of a list in the order of their first
    occurrence. *)
Fixpoint firstSeen (l : list jsstring) : list jsstring :=
  match l with
  | [] => []
  | x :: l' => x :: filter (fun y => negb (JS.eqb y x)) (firstSeen l')
  end.

(** The entry of a category in the map of the table: its icon, taken from
    the first of its records, and its records in their order. *)
Definition inCategory (key : jsstring) (workflow : Workflow) : bool :=
  JS.eqb (categoryOf workflow) key.

Definition categoryEntry (workflows : list Workflow) (key : jsstring)
  : jsstring * (jsstring * list Workflow) :=
  let group := filter (inCategory key) workflows in
  (key,
   (match group with
    | first :: _ => icon (categorizeWorkflow first)
    | [] => []
    end,
    group)).






(** The path a warning is about. *)
Definition warningPath (warn : warning) : jsstring :=
  match warn with
  | FailedToParse p _ => p
  end.

Definition isNil {A : Type} (l : list A) : bool :=
  match l with
  | [] => true
  | _ :: _ => false
  end.

(** The annotation of a workflow file in the folder tree. *)
Definition typeAnnotation (w : World) (path : jsstring) : jsstring :=
  match readFile w path with
  | Ok content =>
      if includes content (lit "workflow_call")
      then lit " (reusable)" else lit " (internal)"
  | Throw _ => []
  end.

(** The line of a workflow file in the folder tree. *)
Definition fileLine (w : World) (connector path : jsstring) : jsstring :=
  pipe ++ lit "   " ++ connector ++ lit " " ++ Path.basename path None
  ++ typeAnnotation w path ++ nl.

(** The line the loop writes for the file at index [i] of [total]. *)
Definition lineAt (w : World) (total : nat) (hasActions : bool) (i : nat)
    (path fileName : jsstring) : jsstring :=
  pipe ++ lit "   "
  ++ (if (i =? total - 1)%nat && negb hasActions then elbow else tee)
  ++ lit " " ++ fileName ++ typeAnnotation w path ++ nl.

(** The two lines of an action directory in the folder tree. *)
Definition actionBlock (isLast : bool) (actionDir : jsstring) : jsstring :=
  lit "    " ++ (if isLast then elbow else tee) ++ lit " "
  ++ Path.basename actionDir None ++ lit "/" ++ nl
  ++ lit "    " ++ (if isLast then lit " " else pipe)
  ++ lit "   " ++ elbow ++ lit " action.yml" ++ nl.

End Expected.

Import Expected.

(* ================================================================== *)
(** * Further repositories and records *)
(* ================================================================== *)

Module Scenarios.

(** A collation that compares code unit by code unit. *)
Fixpoint compareCodeUnits (a b : jsstring) : Z :=
  match a, b with
  | [], [] => 0
  | [], _ :: _ => -1
  | _ :: _, [] => 1
  | c :: a', d :: b' =>
      if (c <? d)%N then -1
      else if (d <? c)%N then 1
      else compareCodeUnits a' b'
  end.

Definition testUnitPath : jsstring := lit ".github/workflows/test-unit.yml".
Definition setupNodeDir : jsstring := lit ".github/actions/setup-node/".
Definition cacheDir : jsstring := lit ".github/actions/cache/".

(** Two workflow files, of which only one can be read, two action
    directories and no [README.md]. *)
Definition withActions : World :=
  {| glob := fun pattern =>
       if JS.eqb pattern workflowsGlob then Ok [testUnitPath; deployProdPath]
       else if JS.eqb pattern actionsGlob then Ok [setupNodeDir; cacheDir]
       else Ok [];
     readFile := fun p => if JS.eqb p deployProdPath then Ok deployProdContent
                          else Throw enoent;
     parse := fun _ => Ok (titled (lit "Reusable Deploy") callable);
     localeCompare := compareCodeUnits |}.



(** A file system on which every write succeeds. *)
Definition writable : Writer := fun _ _ => Ok tt.

(** The parameters of a workflow, as the parser delivers them. *)
Definition parameters : value :=
  VObject [(lit "node-version", VNull); (lit "cache", VBool true)].

(** The record of [deploy-prod.yml] with a title. *)
Definition deployProdRecord : Workflow :=
  {| name := lit "Deploy";
     description := lit "Deploys to production";
     filePath := deployProdPath;
     fileName := lit "deploy-prod.yml";
     inputs := parameters;
     secrets := VUndefined;
     outputs := VUndefined;
     isReusable := VBool true |}.

End Scenarios.

Import Scenarios.

(* ================================================================== *)
(** * Properties *)
(* ================================================================== *)

(** ** Strings *)

(** The rest of a text after a cut is shorter than the text. *)
Ltac shorter_rest :=
  unfold substringFrom, clamp; rewrite length_skipn; lia.

Lemma jsstring_eqb_eq (s t : jsstring) : JS.eqb s t = true <-> s = t.
Proof.
  revert t; induction s as [|c s IH]; intros [|d t]; simpl; split;
    try congruence; try reflexivity.
  - intros H. apply andb_true_iff in H as [H1 H2].
    apply N.eqb_eq in H1. apply IH in H2. congruence.
  - intros H. injection H as -> ->. rewrite N.eqb_refl. simpl. now apply IH.
Qed.

Lemma jsstring_eqb_refl (s : jsstring) : JS.eqb s s = true.
Proof. now apply jsstring_eqb_eq. Qed.

Lemma startsWith_app (p s : jsstring) : startsWith (p ++ s) p = true.
Proof.
  induction p as [|c p IH]; simpl.
  - now destruct s.
  - now rewrite N.eqb_refl.
Qed.

Lemma startsWith_split (s p : jsstring) :
  startsWith s p = true -> s = p ++ skipn (List.length p) s.
Proof.
  revert s; induction p as [|c p IH]; intros s H.
  - reflexivity.
  - destruct s as [|d s]; simpl in H; [discriminate|].
    apply andb_true_iff in H as [H1 H2]. apply N.eqb_eq in H1. subst d.
    simpl. f_equal. now apply IH.
Qed.

Lemma startsWith_nil (s : jsstring) : startsWith s [] = true.
Proof. now destruct s. Qed.

(** A window that fits into [u] does not see what follows [u]. *)
Lemma startsWith_app_long (u x p : jsstring) :
  (List.length p <= List.length u)%nat ->
  startsWith (u ++ x) p = startsWith u p.
Proof.
  revert u; induction p as [|c p IH]; intros u H.
  - now rewrite !startsWith_nil.
  - destruct u as [|d u]; simpl in H; [lia|].
    simpl. rewrite IH by lia. reflexivity.
Qed.

Lemma startsWith_length (s p : jsstring) :
  startsWith s p = true -> (List.length p <= List.length s)%nat.
Proof.
  intros H. apply startsWith_split in H.
  rewrite H. rewrite length_app. lia.
Qed.

(** ** [lastIndexOf] *)

Lemma lastIndexOf_from_spec (pat s : jsstring) :
  forall i start best,
    (lastIndexOf_from s pat i start best = best
     /\ forall n, (n <= List.length s)%nat -> i + Z.of_nat n <= start ->
                  startsWith (skipn n s) pat = false)
    \/ exists n, lastIndexOf_from s pat i start best = i + Z.of_nat n
                 /\ (n <= List.length s)%nat
                 /\ i + Z.of_nat n <= start
                 /\ startsWith (skipn n s) pat = true.
Proof.
  induction s as [|c s IH]; intros i start best.
  - cbn [lastIndexOf_from].
    destruct ((i <=? start) && startsWith [] pat) eqn:E.
    + right. exists 0%nat. apply andb_true_iff in E as [E1 E2].
      apply Z.leb_le in E1. cbn [skipn List.length].
      split; [lia|]. split; [lia|]. split; [lia|exact E2].
    + left. split; [reflexivity|]. intros n Hn Hle.
      assert (n = 0%nat) by (simpl in Hn; lia). subst n. cbn [skipn].
      apply andb_false_iff in E as [E|E]; [apply Z.leb_gt in E; lia|exact E].
  - cbn [lastIndexOf_from].
    set (best' := if (i <=? start) && startsWith (c :: s) pat then i else best).
    destruct (IH (i + 1) start best') as [[Hr Hno]|[n [Hr [Hn [Hle Hm]]]]].
    + subst best'.
      destruct ((i <=? start) && startsWith (c :: s) pat) eqn:E.
      * right. exists 0%nat. apply andb_true_iff in E as [E1 E2].
        apply Z.leb_le in E1. rewrite Hr. cbn [skipn List.length].
        split; [lia|]. split; [lia|]. split; [lia|exact E2].
      * left. split; [exact Hr|]. intros n Hn Hle.
        destruct n as [|n].
        -- cbn [skipn]. apply andb_false_iff in E as [E|E];
             [apply Z.leb_gt in E; lia|exact E].
        -- cbn [skipn]. apply Hno; cbn [List.length] in Hn; lia.
    + right. exists (S n). rewrite Hr. cbn [skipn List.length].
      split; [lia|]. split; [lia|]. split; [lia|exact Hm].
Qed.

Lemma lastIndexOf_char (s : jsstring) (c : N) (pos : Z) :
  (lastIndexOf s [c] pos = -1
   /\ forall n, (n < List.length s)%nat -> Z.of_nat n <= pos -> nth n s 0%N <> c)
  \/ exists n, lastIndexOf s [c] pos = Z.of_nat n
               /\ Z.of_nat n <= Z.max pos 0
               /\ s = firstn n s ++ c :: skipn (S n) s.
Proof.
  unfold lastIndexOf.
  set (start := Z.min (Z.max pos 0) (JS.length s - JS.length [c])).
  destruct (lastIndexOf_from_spec [c] s 0 start (-1))
    as [[Hr Hno]|[n [Hr [Hn [Hle Hm]]]]].
  - left. split; [exact Hr|]. intros n Hn Hpos Habs.
    assert (Hf : startsWith (skipn n s) [c] = false).
    { apply Hno; [lia|]. unfold start, JS.length. simpl List.length. lia. }
    assert (Hnth : nth n s 0%N = nth 0 (skipn n s) 0%N).
    { rewrite <- (firstn_skipn n s) at 1.
      rewrite app_nth2; rewrite length_firstn; [|lia].
      f_equal. lia. }
    rewrite Hnth in Habs.
    destruct (skipn n s) as [|d t] eqn:E.
    + apply (f_equal (@List.length N)) in E. rewrite length_skipn in E.
      simpl in E. lia.
    + simpl in Habs, Hf. subst d. now rewrite N.eqb_refl in Hf.
  - right. exists n. split; [rewrite Hr; lia|]. split; [unfold start in Hle; lia|].
    apply startsWith_split in Hm. cbn [List.length app] in Hm.
    rewrite skipn_skipn in Hm. cbn [Nat.add] in Hm.
    rewrite <- (firstn_skipn n s) at 1. f_equal. exact Hm.
Qed.

(** ** [split] on the break marker *)

Lemma split_go_nonempty (pat s : jsstring) (k : nat) : split_go pat s k <> [].
Proof.
  revert k; induction s as [|c s IH]; intros k; cbn [split_go].
  - discriminate.
  - destruct k as [|k]; [|apply IH].
    destruct (startsWith (c :: s) pat); [discriminate|].
    destruct (split_go pat s 0); discriminate.
Qed.

Lemma split_go_skip (pat x rest : jsstring) :
  split_go pat (x ++ rest) (List.length x) = split_go pat rest 0.
Proof.
  induction x as [|c x IH]; [reflexivity|]. cbn [app List.length split_go].
  exact IH.
Qed.


(** No proper suffix of the marker is a prefix of it: an occurrence that
    begins before an inserted marker ends before it. *)
Lemma br_border_free (u rest : jsstring) :
  u <> [] ->
  startsWith (u ++ br ++ rest) br = true -> startsWith u br = true.
Proof.
  intros Hu H.
  destruct u as [|c0 [|c1 [|c2 [|c3 u]]]]; [congruence| | | |].
  - cbn in H. rewrite !andb_false_r in H. discriminate.
  - cbn in H. rewrite !andb_false_r in H. discriminate.
  - cbn in H. rewrite !andb_false_r in H. discriminate.
  - rewrite startsWith_app_long in H by (simpl; lia). exact H.
Qed.

Lemma split_app_br (rest p : jsstring) :
  forall k, (k <= List.length p)%nat ->
    split_go br (p ++ br ++ rest) k = split_go br p k ++ split_go br rest 0.
Proof.
  induction p as [|c p IH]; intros k Hk.
  - assert (k = 0%nat) by (simpl in Hk; lia). subst k.
    cbn [app]. change (br ++ rest) with (60%N :: ([98; 114; 62]%N ++ rest)).
    cbn [split_go].
    change (60%N :: [98; 114; 62]%N ++ rest) with (br ++ rest).
    rewrite startsWith_app.
    change (List.length br - 1)%nat with (List.length [98; 114; 62]%N).
    rewrite split_go_skip. reflexivity.
  - cbn [app split_go]. destruct k as [|k].
    + destruct (startsWith (c :: p ++ br ++ rest) br) eqn:E.
      * apply (br_border_free (c :: p)) in E; [|discriminate].
        rewrite E. pose proof (startsWith_length _ _ E) as L.
        rewrite IH by (simpl in L |- *; lia). reflexivity.
      * assert (E' : startsWith (c :: p) br = false).
        { destruct (startsWith (c :: p) br) eqn:E'; [|reflexivity].
          pose proof (startsWith_length _ _ E') as L.
          change (c :: p ++ br ++ rest) with ((c :: p) ++ br ++ rest) in E.
          rewrite startsWith_app_long in E by exact L. congruence. }
        rewrite E', IH by lia.
        pose proof (split_go_nonempty br p 0) as NE.
        destruct (split_go br p 0); [congruence|reflexivity].
    + apply IH. simpl in Hk. lia.
Qed.


(** ** [wrapText] *)

Lemma wrapText_fuel_spec (n : Z) (Hn : 0 < n) :
  forall fuel text, (List.length text < fuel)%nat ->
    exists segments final,
      wrapText_fuel fuel text n = Some (laidOut segments final)
      /\ original segments final = text
      /\ Forall (segmentOk n) segments
      /\ JS.length final <= n.
Proof.
  induction fuel as [|fuel IH]; intros text Hfuel; [lia|].
  cbn [wrapText_fuel].
  destruct (JS.length text <=? n) eqn:Hfit.
  - exists [], text. apply Z.leb_le in Hfit. repeat split; auto.
  - apply Z.leb_gt in Hfit. unfold JS.length in Hfit.
    destruct (lastIndexOf_char text 32 (n - 1)) as [[Hr Hno]|[k [Hr [Hk Hsplit]]]].
    + change (lit " ") with [32%N]. rewrite Hr. cbn [Z.eqb].
      destruct (IH (substringFrom text n)) as [segs [final [H1 [H2 [H3 H4]]]]].
      { shorter_rest. }
      rewrite H1. cbn [option_map].
      exists ((substring text 0 n, false) :: segs), final.
      assert (Hsub : substring text 0 n = firstn (Z.to_nat n) text).
      { unfold substring, clamp. cbn [Z.to_nat].
        rewrite !Nat.min_0_l, Nat.max_0_l, Nat.sub_0_r.
        rewrite Nat.min_l by lia. reflexivity. }
      split; [reflexivity|]. split.
      { cbn [original]. rewrite H2, Hsub. cbn [app].
        unfold substringFrom, clamp. rewrite Nat.min_l by lia.
        apply firstn_skipn. }
      split; [|exact H4]. constructor; [|exact H3].
      unfold segmentOk; cbn [fst snd]. rewrite Hsub. split.
      * unfold JS.length. rewrite length_firstn. lia.
      * intros Hin. apply (In_nth _ _ 0%N) in Hin as [m [Hm Hnth]].
        rewrite length_firstn in Hm.
        rewrite nth_firstn in Hnth.
        destruct (m <? Z.to_nat n)%nat eqn:E; [|apply Nat.ltb_ge in E; lia].
        apply (Hno m); [lia|lia|exact Hnth].
    + change (lit " ") with [32%N]. rewrite Hr.
      destruct (Z.of_nat k =? -1) eqn:E; [apply Z.eqb_eq in E; lia|].
      destruct (IH (substringFrom text (Z.of_nat k + 1)))
        as [segs [final [H1 [H2 [H3 H4]]]]].
      { shorter_rest. }
      rewrite H1. cbn [option_map].
      assert (Hlen : (k < List.length text)%nat).
      { apply (f_equal (@List.length N)) in Hsplit.
        rewrite length_app, length_firstn in Hsplit. simpl in Hsplit. lia. }
      exists ((substring text 0 (Z.of_nat k), true) :: segs), final.
      assert (Hsub : substring text 0 (Z.of_nat k) = firstn k text).
      { unfold substring, clamp. cbn [Z.to_nat].
        rewrite !Nat.min_0_l, Nat.max_0_l, Nat.sub_0_r, Nat2Z.id.
        rewrite Nat.min_l by lia. reflexivity. }
      split; [reflexivity|]. split.
      { cbn [original]. rewrite H2, Hsub.
        unfold substringFrom, clamp.
        replace (Z.to_nat (Z.of_nat k + 1)) with (S k) by lia.
        rewrite Nat.min_l by lia. symmetry. exact Hsplit. }
      split; [|exact H4]. constructor; [|exact H3].
      unfold segmentOk; cbn [fst snd]. rewrite Hsub.
      unfold JS.length. rewrite length_firstn. lia.
Qed.


(** With a positive width the recursion ends, whatever the count of calls
    allowed beyond the length of the text. *)
Lemma wrapText_total (text : jsstring) (n : Z) :
  0 < n ->
  exists r, forall fuel, (List.length text < fuel)%nat ->
                         wrapText_fuel fuel text n = Some r.
Proof.
  intros Hn. remember (List.length text) as len eqn:Hlen.
  revert text Hlen. induction len as [len IH] using lt_wf_ind.
  intros text Hlen.
  assert (Hrec : forall rest, (List.length rest < len)%nat ->
            exists r, forall fuel, (List.length rest < fuel)%nat ->
                                   wrapText_fuel fuel rest n = Some r).
  { intros rest Hrest. now apply (IH (List.length rest)). }
  destruct (JS.length text <=? n) eqn:Hfit.
  - exists text. intros [|fuel] Hf; [lia|]. cbn [wrapText_fuel].
    now rewrite Hfit.
  - pose proof Hfit as Hgt. apply Z.leb_gt in Hgt. unfold JS.length in Hgt.
    destruct (lastIndexOf text (lit " ") (n - 1) =? -1) eqn:Hidx.
    + destruct (Hrec (substringFrom text n)) as [r Hr].
      { shorter_rest. }
      exists (substring text 0 n ++ br ++ r).
      intros [|fuel] Hf; [lia|]. cbn [wrapText_fuel].
      rewrite Hfit, Hidx, Hr; [reflexivity|].
      shorter_rest.
    + destruct (lastIndexOf_char text 32 (n - 1))
        as [[Habs _]|[k [Hk _]]].
      { change (lit " ") with [32%N] in Hidx. rewrite Habs in Hidx.
        discriminate. }
      change (lit " ") with [32%N] in Hidx |- *. rewrite Hk in *.
      destruct (Hrec (substringFrom text (Z.of_nat k + 1))) as [r Hr].
      { shorter_rest. }
      exists (substring text 0 (Z.of_nat k) ++ br ++ r).
      intros [|fuel] Hf; [lia|]. cbn [wrapText_fuel].
      change (lit " ") with [32%N].
      rewrite Hfit, Hk, Hidx, Hr; [reflexivity|].
      shorter_rest.
Qed.

Lemma wrapped_spec (text : jsstring) (n : Z) :
  0 < n -> wrapText text n = Some (wrapped text n).
Proof.
  intros Hn. destruct (wrapText_total text n Hn) as [r Hr].
  unfold wrapped, wrapText. now rewrite Hr by lia.
Qed.





(** ** Description extraction *)

Lemma scanLines_spec (lines : list jsstring) :
  match scanLines lines with
  | Some comment => comment
  | None => noDescription
  end
  = match find (fun line => isCommentLine line && JS.truthy (commentBody line))
            (takeWhile (fun line => isBlank line || isCommentLine line) lines)
    with
    | Some line => commentBody line
    | None => noDescription
    end.
Proof.
  induction lines as [|line rest IH]; [reflexivity|].
  cbn [scanLines takeWhile]. unfold isBlank, isCommentLine, commentBody in *.
  destruct (JS.truthy (trim line)) eqn:Ht;
    destruct (startsWith (trim line) (lit "#")) eqn:Hc; cbn [negb andb orb find].
  - rewrite Hc. cbn [andb].
    destruct (JS.truthy (trim (skipn 1 (trim line)))); [reflexivity|exact IH].
  - reflexivity.
  - rewrite Hc. cbn [andb].
    destruct (JS.truthy (trim (skipn 1 (trim line)))); [reflexivity|exact IH].
  - rewrite Hc. cbn [andb]. exact IH.
Qed.

(** C4.  The description is the stripped body of the first comment line
    with a non-empty body among the lines that precede the first non-blank
    non-comment line, and the sentinel when there is none; comment lines
    with bodies "A", "", "B" before other content give "A". *)
Theorem getWorkflowDescription_spec :
  (forall raw, getWorkflowDescription raw = description_spec raw)
  /\ getWorkflowDescription
       (lit "# A" ++ nl ++ lit "#" ++ nl ++ lit "# B" ++ nl ++ lit "name: CI"
          ++ nl ++ lit "# late")
     = lit "A"
  /\ getWorkflowDescription
       (nl ++ lit "  #  " ++ nl ++ lit "#B " ++ nl ++ lit "on: push") = lit "B"
  /\ getWorkflowDescription (nl ++ lit "name: CI" ++ nl ++ lit "# late")
     = lit "No description provided.".
Proof.
  split; [|repeat split; reflexivity].
  intros raw. unfold getWorkflowDescription, description_spec.
  apply scanLines_spec.
Qed.

(** ** Classification *)

Lemma categoryAmong_find (filename : jsstring) (mappings : list Mapping) :
  categoryAmong mappings filename
  = match find (mappingMatches filename) mappings with
    | Some mapping => {| category := mappingCategory mapping;
                         icon := mappingIcon mapping |}
    | None => miscellaneous
    end.
Proof.
  induction mappings as [|m rest IH]; [reflexivity|].
  cbn [categoryAmong find]. now destruct (mappingMatches filename m).
Qed.

Lemma categoryAmong_in (filename : jsstring) (mappings : list Mapping) :
  In (category (categoryAmong mappings filename))
    (map mappingCategory mappings ++ [category miscellaneous]).
Proof.
  induction mappings as [|m rest IH]; cbn [categoryAmong map app].
  - now left.
  - destruct (mappingMatches filename m); [now left|now right].
Qed.

Lemma or_else_nil (s : jsstring) : or_else s [] = s.
Proof. now destruct s. Qed.

(** C7.  Classification is total: every file name, and so every record,
    receives one category of the fixed set, and the default category when
    no prefix rule matches. *)
Theorem classification_total (workflow : Workflow) (filename : jsstring) :
  In (category (getCategoryByFilename filename)) categories
  /\ In (category (categorizeWorkflow workflow)) categories
  /\ (forallb (fun m => negb (mappingMatches filename m)) CATEGORY_MAPPINGS
      = true ->
      getCategoryByFilename filename = miscellaneous
      /\ category miscellaneous = lit "Miscellaneous").
Proof.
  split; [apply categoryAmong_in|].
  split; [apply categoryAmong_in|].
  intros H. split; [|reflexivity].
  unfold getCategoryByFilename. rewrite categoryAmong_find.
  destruct (find (mappingMatches filename) CATEGORY_MAPPINGS) as [m|] eqn:E;
    [|reflexivity].
  apply find_some in E as [Hin Hm].
  rewrite forallb_forall in H. specialize (H m Hin).
  rewrite Hm in H. discriminate.
Qed.


(** ** The Collector *)

Section Collector.

Variable w : World.

Lemma fold_scanStep (files : list jsstring) :
  forall st,
    fold_left (scanStep w) files st
    = (fst st ++ recordsOf w files, snd st ++ warningsOf w files).
Proof.
  induction files as [|p files IH]; intros [records warnings].
  - cbn. now rewrite !app_nil_r.
  - cbn [fold_left]. rewrite IH. unfold scanStep, recordsOf, warningsOf.
    cbn [flat_map fst snd].
    destruct (tryFile w p); cbn [fst snd app];
      now rewrite <- ?app_assoc.
Qed.

Lemma recordsOf_length (files : list jsstring) :
  List.length (recordsOf w files)
  = List.length (filter (fun p => negb (fails w p)) files).
Proof.
  induction files as [|p files IH]; [reflexivity|].
  unfold recordsOf, fails in *. cbn [flat_map filter].
  destruct (tryFile w p); cbn [negb app List.length]; now rewrite IH.
Qed.

Lemma warningsOf_length (files : list jsstring) :
  List.length (warningsOf w files) = List.length (filter (fails w) files).
Proof.
  induction files as [|p files IH]; [reflexivity|].
  unfold warningsOf, fails in *. cbn [flat_map filter].
  destruct (tryFile w p); cbn [negb app List.length]; now rewrite IH.
Qed.

(** A file the parser rejects fails, and so does a file that cannot be
    read. *)
Lemma invalid_syntax_fails (p content : jsstring) (e : error) :
  readFile w p = Ok content -> parse w content = Throw e ->
  tryFile w p = Throw e.
Proof.
  intros Hr Hp. unfold tryFile, workflowInfo. now rewrite Hr; cbn; rewrite Hp.
Qed.

Lemma unreadable_fails (p : jsstring) (e : error) :
  readFile w p = Throw e -> tryFile w p = Throw e.
Proof. intros Hr. unfold tryFile. now rewrite Hr. Qed.

(** What a record that was pushed is made of. *)
Lemma tryFile_Ok (p : jsstring) (info : Workflow) :
  tryFile w p = Ok info ->
  exists content workflow title,
    readFile w p = Ok content
    /\ parse w content = Ok workflow
    /\ getField workflow (lit "name") = Ok (VString title)
    /\ filePath info = p
    /\ description info = getWorkflowDescription content
    /\ name info = or_else (stripReusable title)
                     (Path.basename p (Some (Path.extname p))).
Proof.
  unfold tryFile, workflowInfo, bind. intros H.
  destruct (readFile w p) as [content|] eqn:Hr; [|discriminate].
  destruct (parse w content) as [workflow|] eqn:Hp; [|discriminate].
  destruct (getField workflow (lit "name")) as [title|] eqn:Hn; [|discriminate].
  destruct title as [| | | |title| |]; cbn [callReplace] in H; try discriminate.
  destruct (getField workflow (lit "on")) as [on|]; [|discriminate].
  destruct (reusableFlag on) as [reusable|]; [|discriminate].
  injection H as <-. exists content, workflow, title.
  repeat split; try reflexivity; assumption.
Qed.

(** A file that can be read and parses to a mapping with a string title and
    a mapping of triggers does not fail. *)
Lemma titled_file_succeeds (p content title : jsstring)
    (props triggers : list (jsstring * value)) :
  readFile w p = Ok content ->
  parse w content = Ok (VObject props) ->
  lookup (lit "name") props = VString title ->
  lookup (lit "on") props = VObject triggers ->
  fails w p = false.
Proof.
  intros Hr Hp Hn Ho. unfold fails, tryFile, workflowInfo, bind.
  rewrite Hr, Hp. cbn [getField]. rewrite Hn, Ho. reflexivity.
Qed.

End Collector.

(** ** Which files give a record *)

Lemma Ok_inj (A : Type) (a b : A) : Ok a = Ok b -> a = b.
Proof. intros H. now injection H. Qed.








(** ** Paths of the glob *)

Lemma jsstring_eqb_length (s t : jsstring) :
  List.length s <> List.length t -> JS.eqb s t = false.
Proof.
  intros H. destruct (JS.eqb s t) eqn:E; [|reflexivity].
  apply jsstring_eqb_eq in E. now subst.
Qed.

Lemma endsWith_split (s suffix : jsstring) :
  Path.endsWith s suffix = true ->
  s = firstn (List.length s - List.length suffix) s ++ suffix.
Proof.
  unfold Path.endsWith. intros H. apply startsWith_split in H.
  apply (f_equal (@rev N)) in H. rewrite rev_involutive, rev_app_distr in H.
  rewrite rev_involutive in H.
  remember (rev (skipn (List.length (rev suffix)) (rev s))) as pre eqn:Hpre.
  clear Hpre. subst s.
  rewrite length_app, Nat.add_sub, firstn_app, Nat.sub_diag, firstn_all.
  cbn [firstn]. now rewrite app_nil_r.
Qed.

Lemma splitBy_free (sep : N -> bool) (s : jsstring) :
  existsb sep s = false -> splitBy sep s = [s].
Proof.
  induction s as [|c s IH]; [reflexivity|]. cbn [existsb splitBy].
  intros H. apply orb_false_iff in H as [Hc Hs]. now rewrite Hc, IH.
Qed.

Lemma splitBy_last (sep : N -> bool) (c : N) (file a : jsstring) :
  sep c = true -> existsb sep file = false ->
  exists init, splitBy sep (a ++ c :: file) = init ++ [file] /\ init <> [].
Proof.
  intros Hc Hfile. induction a as [|x a [init [IH NE]]]; cbn [app splitBy].
  - rewrite Hc, splitBy_free by exact Hfile. now exists [[]].
  - rewrite IH. destruct (sep x).
    + now exists ([] :: init).
    + destruct init as [|seg init]; [congruence|]. now exists ((x :: seg) :: init).
Qed.

Lemma dropWhile_head (A : Type) (p : A -> bool) (x : A) (l : list A) :
  p x = false -> Path.dropWhile p (x :: l) = x :: l.
Proof. intros H. cbn. now rewrite H. Qed.

Lemma lastPortion_file (a file : jsstring) :
  file <> [] -> existsb Path.isSlash file = false ->
  Path.lastPortion (a ++ 47%N :: file) = file.
Proof.
  intros NE Hfile. unfold Path.lastPortion.
  assert (Hd : Path.dropWhile Path.isSlash (rev (a ++ 47%N :: file))
               = rev (a ++ 47%N :: file)).
  { rewrite rev_app_distr. cbn [rev]. rewrite <- app_assoc.
    destruct (rev file) as [|y ys] eqn:E.
    - apply (f_equal (@rev N)) in E. rewrite rev_involutive in E. now subst.
    - cbn [app]. apply dropWhile_head.
      assert (Hin : In y file) by (apply in_rev; rewrite E; now left).
      destruct (Path.isSlash y) eqn:Hy; [|reflexivity].
      assert (existsb Path.isSlash file = true)
        by (apply existsb_exists; eauto).
      congruence. }
  rewrite Hd, rev_involutive.
  destruct (splitBy_last Path.isSlash 47 file a eq_refl Hfile) as [init [-> _]].
  apply last_last.
Qed.

Lemma lastDot_app (s t : jsstring) :
  forall i best,
    Path.lastDot (s ++ t) i best
    = Path.lastDot t (i + List.length s) (Path.lastDot s i best).
Proof.
  induction s as [|c s IH]; intros i best; cbn [app Path.lastDot List.length].
  - now rewrite Nat.add_0_r.
  - rewrite IH. f_equal. lia.
Qed.

(** What the glob guarantees about a path, spelled out. *)
Lemma matchesWorkflowsGlob_shape (p : jsstring) :
  matchesWorkflowsGlob p = true ->
  exists stem ext,
    p = workflowsDir ++ stem ++ ext
    /\ stem <> []
    /\ existsb Path.isSlash (stem ++ ext) = false
    /\ (ext = lit ".yml" \/ ext = lit ".yaml")
    /\ stemOf p = stem.
Proof.
  unfold matchesWorkflowsGlob, stemOf.
  set (file := skipn (List.length workflowsDir) p).
  intros H. apply andb_true_iff in H as [H Hext].
  apply andb_true_iff in H as [H Hdot]. apply andb_true_iff in H as [Hdir Hsl].
  apply negb_true_iff in Hsl, Hdot.
  apply startsWith_split in Hdir. fold file in Hdir.
  assert (Hstem : forall ext,
            Path.endsWith file ext = true -> startsWith ext (lit ".") = true ->
            firstn (List.length file - List.length ext) file <> []).
  { intros ext He Hd E. apply endsWith_split in He. rewrite E in He.
    cbn [app] in He. rewrite He in Hdot. congruence. }
  destruct (Path.endsWith file (lit ".yaml")) eqn:Hyaml.
  - assert (E : file = firstn (List.length file - 5) file ++ lit ".yaml")
      by apply (endsWith_split _ _ Hyaml).
    exists (firstn (List.length file - 5) file), (lit ".yaml").
    rewrite <- E. split; [exact Hdir|].
    split; [now apply (Hstem (lit ".yaml"))|].
    split; [exact Hsl|]. split; [now right|reflexivity].
  - cbn [orb] in Hext. rewrite orb_false_r in Hext.
    assert (E : file = firstn (List.length file - 4) file ++ lit ".yml")
      by apply (endsWith_split _ _ Hext).
    exists (firstn (List.length file - 4) file), (lit ".yml").
    rewrite <- E. split; [exact Hdir|].
    split; [now apply (Hstem (lit ".yml"))|].
    split; [exact Hsl|]. split; [now left|reflexivity].
Qed.

Lemma basename_without_extension (stem ext : jsstring) :
  stem <> [] -> existsb Path.isSlash (stem ++ ext) = false ->
  ext = lit ".yml" \/ ext = lit ".yaml" ->
  Path.basename (workflowsDir ++ stem ++ ext)
    (Some (Path.extname (workflowsDir ++ stem ++ ext))) = stem.
Proof.
  intros NE Hsl Hext.
  assert (Hbase : Path.lastPortion (workflowsDir ++ stem ++ ext) = stem ++ ext).
  { change workflowsDir with (lit ".github/workflows" ++ [47%N]).
    rewrite <- app_assoc.
    change ([47%N] ++ stem ++ ext) with (47%N :: (stem ++ ext)).
    apply lastPortion_file; auto.
    destruct stem; [congruence|discriminate]. }
  assert (Hdot : exists i, Path.lastDot (stem ++ ext) 0 None = Some (S i)
                           /\ S i = List.length stem).
  { destruct stem as [|c stem]; [congruence|].
    exists (List.length stem). split; [|reflexivity].
    rewrite lastDot_app. destruct Hext as [-> | ->]; reflexivity. }
  destruct Hdot as [i [Hdot Hi]].
  assert (Hne : JS.eqb (stem ++ ext) (lit "..") = false).
  { apply jsstring_eqb_length. rewrite length_app.
    destruct Hext as [-> | ->]; simpl; lia. }
  assert (Hx : Path.extname (workflowsDir ++ stem ++ ext) = ext).
  { unfold Path.extname. rewrite Hbase, Hdot, Hne, Hi.
    rewrite skipn_app, skipn_all, Nat.sub_diag. reflexivity. }
  rewrite Hx. unfold Path.basename. rewrite Hbase.
  rewrite (jsstring_eqb_length ext) by
    (rewrite !length_app; destruct Hext as [-> | ->]; simpl; lia).
  cbn [andb].
  assert (He : Path.endsWith (stem ++ ext) ext = true).
  { unfold Path.endsWith. rewrite rev_app_distr. apply startsWith_app. }
  rewrite He, (jsstring_eqb_length (stem ++ ext) ext) by
    (rewrite length_app; destruct stem; [congruence|simpl; lia]).
  replace (JS.truthy ext) with true by (destruct Hext as [-> | ->]; reflexivity).
  cbn [andb negb]. rewrite length_app, Nat.add_sub, firstn_app, Nat.sub_diag.
  rewrite firstn_all. cbn [firstn]. apply app_nil_r.
Qed.

Lemma or_else_nonempty (a b : jsstring) : b <> [] -> or_else a b <> [].
Proof. unfold or_else. destruct a; cbn; congruence. Qed.

(** C10.  Every record the Collector pushes has a non-empty name: the
    declared title with the prefix token removed, or, when that is empty,
    the file's name without directory and extension, which is not empty for
    a path of the glob. *)
Theorem scanWorkflows_names_nonempty (w : World) (files : list jsstring)
    (records : list Workflow) :
  glob w workflowsGlob = Ok files ->
  Forall (fun p => matchesWorkflowsGlob p = true) files ->
  fst (scanWorkflows w) = Ok records ->
  Forall (fun r =>
            name r <> []
            /\ stemOf (filePath r) <> []
            /\ exists content workflow title,
                 readFile w (filePath r) = Ok content
                 /\ parse w content = Ok workflow
                 /\ getField workflow (lit "name") = Ok (VString title)
                 /\ name r = or_else (stripReusable title)
                               (stemOf (filePath r)))
    records.
Proof.
  intros Hglob Hfiles Hrun.
  unfold scanWorkflows in Hrun. rewrite Hglob, fold_scanStep in Hrun.
  cbn [fst app] in Hrun. injection Hrun as <-.
  apply Forall_forall. intros r Hin. unfold recordsOf in Hin.
  apply in_flat_map in Hin as [p [Hp Hr]].
  destruct (tryFile w p) as [info|] eqn:Htry; [|contradiction].
  destruct Hr as [->|[]].
  apply tryFile_Ok in Htry
    as [content [workflow [title [Hread [Hparse [Htitle [Hpath [_ Hname]]]]]]]].
  rewrite Forall_forall in Hfiles.
  destruct (matchesWorkflowsGlob_shape p (Hfiles p Hp))
    as [stem [ext [Hshape [NE [Hsl [Hext Hstem]]]]]].
  rewrite Hpath, Hstem, Hname, Hshape.
  rewrite basename_without_extension by assumption.
  split; [now apply or_else_nonempty|]. split; [exact NE|].
  exists content, workflow, title. rewrite <- Hshape. auto.
Qed.

(** ** [indexOf] *)

Lemma indexOf_from_spec (pat s : jsstring) :
  forall i,
    (indexOf_from s pat i = -1
     /\ forall n, (n <= List.length s)%nat ->
                  startsWith (skipn n s) pat = false)
    \/ exists n, indexOf_from s pat i = i + Z.of_nat n
                 /\ (n <= List.length s)%nat
                 /\ startsWith (skipn n s) pat = true
                 /\ forall m, (m < n)%nat ->
                              startsWith (skipn m s) pat = false.
Proof.
  induction s as [|c s IH]; intros i; cbn [indexOf_from].
  - destruct (startsWith [] pat) eqn:E.
    + right. exists 0%nat. cbn [skipn List.length].
      split; [lia|]. split; [lia|]. split; [exact E|]. intros; lia.
    + left. split; [reflexivity|]. intros n Hn.
      assert (n = 0%nat) by (simpl in Hn; lia). now subst.
  - destruct (startsWith (c :: s) pat) eqn:E.
    + right. exists 0%nat. cbn [skipn List.length].
      split; [lia|]. split; [lia|]. split; [exact E|]. intros; lia.
    + destruct (IH (i + 1)) as [[Hr Hno]|[n [Hr [Hn [Hm Hmin]]]]].
      * left. split; [exact Hr|]. intros [|n] Hn; [exact E|].
        cbn [skipn]. apply Hno. simpl in Hn. lia.
      * right. exists (S n). cbn [skipn List.length].
        split; [lia|]. split; [lia|]. split; [exact Hm|].
        intros [|m] Hlt; [exact E|]. cbn [skipn]. apply Hmin. lia.
Qed.

(** A found index cuts the string around the first occurrence. *)
Lemma indexOf_found (s pat : jsstring) :
  indexOf s pat <> -1 ->
  exists n, indexOf s pat = Z.of_nat n
            /\ (n + List.length pat <= List.length s)%nat
            /\ s = firstn n s ++ pat ++ skipn (n + List.length pat) s
            /\ forall m, (m < n)%nat -> startsWith (skipn m s) pat = false.
Proof.
  unfold indexOf. intros H.
  destruct (indexOf_from_spec pat s 0) as [[Hr _]|[n [Hr [Hn [Hm Hmin]]]]];
    [congruence|].
  exists n. split; [lia|].
  pose proof (startsWith_length _ _ Hm) as L. rewrite length_skipn in L.
  split; [lia|]. split; [|exact Hmin].
  apply startsWith_split in Hm. rewrite skipn_skipn in Hm.
  rewrite <- (firstn_skipn n s) at 1. f_equal.
  rewrite Nat.add_comm. exact Hm.
Qed.

(** An occurrence bounds the index from above. *)
Lemma indexOf_occurrence (a pat b : jsstring) :
  exists n, indexOf (a ++ pat ++ b) pat = Z.of_nat n
            /\ (n <= List.length a)%nat.
Proof.
  assert (Hocc : startsWith (skipn (List.length a) (a ++ pat ++ b)) pat = true).
  { rewrite skipn_app, skipn_all, Nat.sub_diag. cbn [skipn app].
    apply startsWith_app. }
  unfold indexOf.
  destruct (indexOf_from_spec pat (a ++ pat ++ b) 0)
    as [[_ Hno]|[n [Hr [Hn [Hm Hmin]]]]].
  - rewrite Hno in Hocc; [discriminate|]. rewrite length_app. lia.
  - exists n. split; [lia|].
    destruct (Nat.le_gt_cases n (List.length a)) as [|Hgt]; [assumption|].
    rewrite (Hmin _ Hgt) in Hocc. discriminate.
Qed.

(** The first occurrence stays the first one when what follows it
    changes. *)
Lemma indexOf_first (a pat b : jsstring) :
  (forall m, (m < List.length a)%nat ->
             startsWith (skipn m (a ++ pat)) pat = false) ->
  indexOf (a ++ pat ++ b) pat = JS.length a.
Proof.
  intros Hmin. destruct (indexOf_occurrence a pat b) as [n [Hr Hn]].
  rewrite Hr. unfold JS.length. f_equal.
  destruct (Nat.eq_dec n (List.length a)) as [|Hne]; [assumption|].
  assert (Hlt : (n < List.length a)%nat) by lia.
  unfold indexOf in Hr.
  destruct (indexOf_from_spec pat (a ++ pat ++ b) 0)
    as [[Hr' _]|[n' [Hr' [_ [Hm _]]]]]; [lia|].
  assert (n' = n) by lia. subst n'.
  specialize (Hmin n Hlt).
  rewrite app_assoc, skipn_app in Hm.
  replace (n - List.length (a ++ pat))%nat with 0%nat in Hm
    by (rewrite length_app; lia).
  cbn [skipn] in Hm. rewrite startsWith_app_long in Hm; [congruence|].
  rewrite length_skipn, length_app. lia.
Qed.

Lemma substring_prefix (s : jsstring) (n : nat) :
  substring s 0 (Z.of_nat n) = firstn n s.
Proof.
  unfold substring, clamp. cbn [Z.to_nat].
  rewrite Nat.min_0_l, Nat.max_0_l, Nat.min_0_l, Nat.sub_0_r, Nat2Z.id.
  cbn [skipn].
  destruct (Nat.le_gt_cases n (List.length s)).
  - now rewrite Nat.min_l.
  - rewrite Nat.min_r, !firstn_all2 by lia. reflexivity.
Qed.

Lemma substringFrom_suffix (s : jsstring) (n : nat) :
  substringFrom s (Z.of_nat n) = skipn n s.
Proof.
  unfold substringFrom, clamp. rewrite Nat2Z.id.
  destruct (Nat.le_gt_cases n (List.length s)).
  - now rewrite Nat.min_l.
  - rewrite Nat.min_r, !skipn_all2 by lia. reflexivity.
Qed.

(** ** The splice *)

Lemma generatedBlock_ends (W F : jsstring) :
  exists head, generatedBlock W F = head ++ endFolderStructure ++ nl ++ nl.
Proof.
  unfold generatedBlock.
  exists (beginWorkflows ++ nl
          ++ lit "## " ++ [55357; 56550]%N ++ lit " Available Workflows"
          ++ nl ++ nl ++ W ++ endWorkflows ++ nl ++ nl
          ++ beginFolderStructure ++ nl
          ++ lit "## " ++ [55356; 57303; 65039]%N
          ++ lit " Workflows Folder Structure" ++ nl ++ nl ++ F ++ nl).
  now rewrite <- !app_assoc.
Qed.

Lemma generatedBlock_begins (W F : jsstring) :
  exists tail, generatedBlock W F = beginWorkflows ++ tail.
Proof. unfold generatedBlock. eexists. reflexivity. Qed.

(** C1, as amended.  When the document holds the begin marker of the
    capability table and the end marker of the folder tree, the splice
    keeps, character for character, what precedes the first begin marker
    and what follows the first end marker; everything from the one through
    the other, the text between the two regions included, gives way to the
    generated block. *)
Theorem splice_preserves_outside (doc W F : jsstring) :
  indexOf doc beginWorkflows <> -1 ->
  indexOf doc endFolderStructure <> -1 ->
  exists before inner front after,
    doc = before ++ beginWorkflows ++ inner
    /\ indexOf doc beginWorkflows = JS.length before
    /\ doc = front ++ endFolderStructure ++ after
    /\ indexOf doc endFolderStructure = JS.length front
    /\ splice doc W F = before ++ generatedBlock W F ++ after.
Proof.
  intros Hb He.
  destruct (indexOf_found _ _ Hb) as [i [Hi [Li [Si _]]]].
  destruct (indexOf_found _ _ He) as [j [Hj [Lj [Sj _]]]].
  exists (firstn i doc), (skipn (i + List.length beginWorkflows) doc),
    (firstn j doc), (skipn (j + List.length endFolderStructure) doc).
  split; [exact Si|]. split.
  { rewrite Hi. unfold JS.length. rewrite length_firstn. lia. }
  split; [exact Sj|]. split.
  { rewrite Hj. unfold JS.length. rewrite length_firstn. lia. }
  unfold splice. rewrite Hi, Hj, substring_prefix.
  unfold JS.length. rewrite <- Nat2Z.inj_add, substringFrom_suffix.
  reflexivity.
Qed.

(** Each run puts two more line feeds after the end marker: the splice is
    never idempotent. *)
Lemma splice_grows (doc W F : jsstring) :
  JS.length (splice doc W F) + 2 <= JS.length (splice (splice doc W F) W F).
Proof.
  set (out := splice doc W F).
  assert (Hout : exists before after,
             out = before ++ generatedBlock W F ++ after
             /\ indexOf out beginWorkflows = JS.length before).
  { unfold out, splice.
    destruct (Z.eq_dec (indexOf doc beginWorkflows) (-1)) as [E|NE].
    - rewrite E. exists [], (substringFrom doc
                              (indexOf doc endFolderStructure
                               + JS.length endFolderStructure)).
      split; [reflexivity|].
      destruct (generatedBlock_begins W F) as [tail ->].
      change (substring doc 0 (-1)) with (@nil N). cbn [app].
      rewrite <- app_assoc. apply (indexOf_first []). intros m Hm.
      simpl in Hm. lia.
    - destruct (indexOf_found _ _ NE) as [i [Hi [Li [Si Hmin]]]].
      rewrite Hi, substring_prefix.
      exists (firstn i doc), (substringFrom doc
                               (indexOf doc endFolderStructure
                                + JS.length endFolderStructure)).
      split; [reflexivity|].
      destruct (generatedBlock_begins W F) as [tail ->].
      rewrite <- app_assoc. apply indexOf_first.
      intros m Hm. rewrite length_firstn in Hm.
      specialize (Hmin m ltac:(lia)).
      rewrite Si in Hmin. rewrite app_assoc, skipn_app in Hmin.
      assert (Lf : List.length (firstn i doc) = i)
        by (rewrite length_firstn; lia).
      replace (m - List.length (firstn i doc ++ beginWorkflows))%nat
        with 0%nat in Hmin by (rewrite length_app; lia).
      cbn [skipn] in Hmin. rewrite startsWith_app_long in Hmin; [exact Hmin|].
      rewrite length_skipn, length_app. lia. }
  destruct Hout as [before [after [Hout Hidx]]].
  destruct (generatedBlock_ends W F) as [head Hblock].
  assert (Hocc : out = (before ++ head) ++ endFolderStructure
                       ++ (nl ++ nl ++ after)).
  { rewrite Hout, Hblock. now rewrite <- !app_assoc. }
  destruct (indexOf_occurrence (before ++ head) endFolderStructure
              (nl ++ nl ++ after)) as [j [Hj Lj]].
  rewrite <- Hocc in Hj.
  unfold splice at 1. fold out. rewrite Hidx, Hj.
  change (JS.length before) with (Z.of_nat (List.length before)).
  change (JS.length endFolderStructure)
    with (Z.of_nat (List.length endFolderStructure)).
  rewrite <- Nat2Z.inj_add, substring_prefix, substringFrom_suffix.
  unfold JS.length. rewrite !length_app, length_firstn, length_skipn.
  assert (Lout : List.length out
                 = (List.length before + List.length (generatedBlock W F)
                    + List.length after)%nat).
  { rewrite Hout, !length_app. lia. }
  assert (Lhead : List.length (generatedBlock W F)
                  = (List.length head + List.length endFolderStructure + 2)%nat).
  { rewrite Hblock, !length_app. simpl. lia. }
  rewrite length_app in Lj. lia.
Qed.

Lemma splice_not_idempotent (doc W F : jsstring) :
  splice (splice doc W F) W F <> splice doc W F.
Proof.
  intros E. pose proof (splice_grows doc W F) as G. rewrite E in G. lia.
Qed.

(** The earlier revision returns without writing when a heading is not
    found. *)
Lemma legacy_splice_guard (doc W F : jsstring) :
  indexOf doc LegacyDocGenerator.headingWorkflows = -1 ->
  LegacyDocGenerator.splice doc W F = None.
Proof. intros H. unfold LegacyDocGenerator.splice. now rewrite H. Qed.

(** The present revision has no such guard: without the begin marker the
    text before is taken to be empty. *)
Lemma splice_without_begin_marker (doc W F : jsstring) :
  indexOf doc beginWorkflows = -1 ->
  splice doc W F
  = generatedBlock W F
    ++ substringFrom doc (indexOf doc endFolderStructure
                          + JS.length endFolderStructure).
Proof. intros H. unfold splice. now rewrite H. Qed.


(** The run is the splice of the document read, and it writes whenever the
    folder tree can be produced, markers or not. *)
Lemma generateDocumentation_splices (w : World) (workflows : list Workflow)
    (tree : jsstring) :
  generateFolderStructure w = Ok tree ->
  generateDocumentation w workflows
  = Ok (Some (splice (match readFile w readmePath with
                      | Ok content => content
                      | Throw _ => []
                      end)
                (renderWorkflowsSection workflows)
                (renderFolderStructureSection tree))).
Proof. intros H. unfold generateDocumentation. now rewrite H. Qed.

(** ** The claims on concrete inputs *)

(** The amended C1 on a document with both regions in place. *)
Lemma splice_preserves_outside_witness :
  exists before inner front after,
    markedReadme = before ++ beginWorkflows ++ inner
    /\ indexOf markedReadme beginWorkflows = JS.length before
    /\ markedReadme = front ++ endFolderStructure ++ after
    /\ indexOf markedReadme endFolderStructure = JS.length front
    /\ splice markedReadme (renderWorkflowsSection [])
         (renderFolderStructureSection emptyTree)
       = before
         ++ generatedBlock (renderWorkflowsSection [])
              (renderFolderStructureSection emptyTree)
         ++ after.
Proof.
  apply (splice_preserves_outside markedReadme); vm_compute; lia.
Defined.

(** C1, as stated, fails: content that stands between the end of the
    capability-table region and the begin of the folder-tree region is not
    in the new document, whatever the two regenerated regions hold. *)
Lemma splice_drops_content_between_regions :
  ~ exists table tree,
      splice separatedDocument (renderWorkflowsSection [])
        (renderFolderStructureSection emptyTree)
      = lit "A" ++ beginWorkflows ++ table ++ endWorkflows
        ++ lit "@"
        ++ beginFolderStructure ++ tree ++ endFolderStructure ++ lit "Z".
Proof.
  intros [table [tree H]].
  assert (Hin : In 64%N
                  (splice separatedDocument (renderWorkflowsSection [])
                     (renderFolderStructureSection emptyTree))).
  { rewrite H, !in_app_iff. do 4 right. left. now left. }
  assert (Hno : forallb (fun c => negb (N.eqb c 64))
                  (splice separatedDocument (renderWorkflowsSection [])
                     (renderFolderStructureSection emptyTree)) = true)
    by (vm_compute; reflexivity).
  rewrite forallb_forall in Hno. specialize (Hno _ Hin). discriminate.
Qed.

(** C2 on the code: the begin marker is not in the document, and the run
    writes all the same; the new document is the generated block followed
    by the old text from its 48th code unit on.  The earlier revision,
    under the same conditions, writes nothing. *)
Theorem generateDocumentation_without_marker_writes :
  indexOf handwrittenReadme beginWorkflows = -1
  /\ generateDocumentation (emptyRepository handwrittenReadme) []
     = Ok (Some (generatedBlock (renderWorkflowsSection [])
                   (renderFolderStructureSection emptyTree)
                 ++ skipn 47 handwrittenReadme))
  /\ generatedBlock (renderWorkflowsSection [])
       (renderFolderStructureSection emptyTree)
     ++ skipn 47 handwrittenReadme <> handwrittenReadme
  /\ LegacyDocGenerator.splice handwrittenReadme (renderWorkflowsSection [])
       (renderFolderStructureSection emptyTree) = None.
Proof.
  split; [reflexivity|]. split; [vm_compute; reflexivity|].
  split; [|reflexivity].
  intros E. apply (f_equal (@List.length N)) in E. vm_compute in E.
  discriminate.
Qed.

(** C5 on the code: a file that parses and declares no title gives no
    record but a warning, where the claim has a record named
    [deploy-prod]; with an empty title the fall-back is taken. *)
Theorem titleless_file_is_dropped :
  matchesWorkflowsGlob deployProdPath = true
  /\ stemOf deployProdPath = lit "deploy-prod"
  /\ scanWorkflows (deployProdRepository (VObject [(lit "on", callable)]))
     = (Ok [],
        [FailedToParse deployProdPath
           (TypeError "Cannot read properties of undefined (reading 'replace')")])
  /\ (exists info,
        fst (scanWorkflows (deployProdRepository (titled [] callable)))
        = Ok [info]
        /\ name info = lit "deploy-prod").
Proof.
  split; [reflexivity|]. split; [reflexivity|]. split; [reflexivity|].
  eexists. split; reflexivity.
Qed.

(** The same for every file without title. *)
Lemma titleless_file_fails (w : World) (p content : jsstring)
    (props : list (jsstring * value)) :
  readFile w p = Ok content ->
  parse w content = Ok (VObject props) ->
  lookup (lit "name") props = VUndefined ->
  fails w p = true.
Proof.
  intros Hr Hp Hn. unfold fails, tryFile, workflowInfo, bind.
  rewrite Hr, Hp. cbn [getField]. now rewrite Hn.
Qed.

(** C6, as stated, fails: no prefix rule matches [lint.yml], the keyword
    [lint] occurs in the lower-cased display name, and the record is
    classified as Miscellaneous, not as Code Quality. *)
Lemma categorizeWorkflow_keyword_counterexample :
  classify_spec (map lowerAscii) (lintWorkflow (lit "Lint Checker"))
  = lit "Code Quality"
  /\ category (categorizeWorkflow (lintWorkflow (lit "Lint Checker")))
     = lit "Miscellaneous"
  /\ category (categorizeWorkflow (lintWorkflow (lit "Lint Checker")))
     <> classify_spec (map lowerAscii) (lintWorkflow (lit "Lint Checker")).
Proof. repeat split; try reflexivity. discriminate. Qed.

(** C6, as amended.  Classification consults the ordered prefix rules only,
    on the file's name without directory and extension; the first rule with
    a matching prefix wins, and without one the record is Miscellaneous.
    The display name plays no part: records of the same path are classified
    alike. *)
Theorem categorizeWorkflow_prefix_rules_only (workflow other : Workflow) :
  filePath other = filePath workflow ->
  categorizeWorkflow workflow
  = match find (mappingMatches (filenameOf workflow)) CATEGORY_MAPPINGS with
    | Some mapping => {| category := mappingCategory mapping;
                         icon := mappingIcon mapping |}
    | None => miscellaneous
    end
  /\ categorizeWorkflow other = categorizeWorkflow workflow.
Proof.
  intros Hpath. split.
  - unfold categorizeWorkflow, getCategoryByFilename. apply categoryAmong_find.
  - unfold categorizeWorkflow, filenameOf. now rewrite Hpath.
Qed.

(** Two records of the path [lint.yml] with different display names. *)
Lemma categorizeWorkflow_prefix_rules_only_witness :
  categorizeWorkflow (lintWorkflow (lit "Lint Checker"))
  = match find (mappingMatches (filenameOf (lintWorkflow (lit "Lint Checker"))))
            CATEGORY_MAPPINGS with
    | Some mapping => {| category := mappingCategory mapping;
                         icon := mappingIcon mapping |}
    | None => miscellaneous
    end
  /\ categorizeWorkflow (lintWorkflow (lit "Deploy unit tests"))
     = categorizeWorkflow (lintWorkflow (lit "Lint Checker")).
Proof.
  apply (categorizeWorkflow_prefix_rules_only
           (lintWorkflow (lit "Lint Checker"))
           (lintWorkflow (lit "Deploy unit tests"))).
  reflexivity.
Defined.

(** No prefix rule matches [lint.yml]. *)
Lemma classification_total_witness :
  getCategoryByFilename (lit "lint.yml") = miscellaneous
  /\ category miscellaneous = lit "Miscellaneous".
Proof.
  apply (classification_total (lintWorkflow (lit "Lint Checker"))
           (lit "lint.yml")).
  reflexivity.
Defined.



(** The records of the same six files; the title [reusable.] strips to the
    empty string and the name is [deploy-pages]. *)
Lemma scanWorkflows_names_nonempty_witness :
  Forall (fun r =>
            name r <> []
            /\ stemOf (filePath r) <> []
            /\ exists content workflow title,
                 readFile sixFiles (filePath r) = Ok content
                 /\ parse sixFiles content = Ok workflow
                 /\ getField workflow (lit "name") = Ok (VString title)
                 /\ name r = or_else (stripReusable title)
                               (stemOf (filePath r)))
    (recordsOf sixFiles sixPaths).
Proof.
  apply (scanWorkflows_names_nonempty sixFiles sixPaths).
  - reflexivity.
  - repeat constructor.
  - reflexivity.
Defined.

(** C9 on the code: a second run on the document the first run wrote, all
    else unchanged, writes a document that is two code units longer. *)
Theorem generateDocumentation_twice_differs :
  exists once twice,
    generateDocumentation (emptyRepository markedReadme) [] = Ok (Some once)
    /\ generateDocumentation
         (afterRun (emptyRepository markedReadme) (Ok (Some once))) []
       = Ok (Some twice)
    /\ JS.length twice = JS.length once + 2
    /\ twice <> once.
Proof.
  exists (splice markedReadme (renderWorkflowsSection [])
            (renderFolderStructureSection emptyTree)).
  exists (splice (splice markedReadme (renderWorkflowsSection [])
                    (renderFolderStructureSection emptyTree))
            (renderWorkflowsSection [])
            (renderFolderStructureSection emptyTree)).
  split; [vm_compute; reflexivity|]. split; [vm_compute; reflexivity|].
  split; [vm_compute; reflexivity|]. apply splice_not_idempotent.
Qed.

(* ================================================================== *)
(** * Further properties *)
(* ================================================================== *)

(** ** Trimming *)

Lemma trimStart_split (s : jsstring) :
  exists pre, s = pre ++ trimStart s /\ forallb isWhiteSpace pre = true.
Proof.
  induction s as [|c s [pre [IH Hpre]]]; cbn [trimStart].
  - now exists [].
  - destruct (isWhiteSpace c) eqn:E.
    + exists (c :: pre). cbn [app forallb]. rewrite E, Hpre.
      split; [now f_equal|reflexivity].
    + now exists [].
Qed.

Lemma trimStart_fixed (c : N) (s : jsstring) :
  isWhiteSpace c = false -> trimStart (c :: s) = c :: s.
Proof. intros H. cbn [trimStart]. now rewrite H. Qed.

Lemma trimStart_head (s : jsstring) :
  match trimStart s with
  | [] => True
  | c :: _ => isWhiteSpace c = false
  end.
Proof.
  induction s as [|c s IH]; cbn [trimStart]; [exact I|].
  destruct (isWhiteSpace c) eqn:E; [exact IH|exact E].
Qed.

Lemma trimStart_idempotent (s : jsstring) : trimStart (trimStart s) = trimStart s.
Proof.
  pose proof (trimStart_head s) as H.
  destruct (trimStart s) as [|c t]; [reflexivity|now apply trimStart_fixed].
Qed.

Lemma trimEnd_split (s : jsstring) :
  exists suf, s = trimEnd s ++ suf /\ forallb isWhiteSpace suf = true.
Proof.
  unfold trimEnd. destruct (trimStart_split (rev s)) as [pre [H Hpre]].
  exists (rev pre). split.
  - rewrite <- rev_app_distr, <- H. now rewrite rev_involutive.
  - rewrite forallb_forall in *. intros c Hc. apply Hpre. now apply in_rev.
Qed.

Lemma trimEnd_idempotent (s : jsstring) : trimEnd (trimEnd s) = trimEnd s.
Proof.
  unfold trimEnd. now rewrite rev_involutive, trimStart_idempotent.
Qed.

(** Trimming the end keeps a first code unit that is not white space. *)
Lemma trimStart_trimEnd (s : jsstring) :
  trimStart s = s -> trimStart (trimEnd s) = trimEnd s.
Proof.
  intros Hs. destruct (trimEnd_split s) as [suf [H Hsuf]].
  destruct (trimEnd s) as [|c t] eqn:E; [reflexivity|].
  apply trimStart_fixed.
  rewrite H in Hs. cbn [app trimStart] in Hs.
  destruct (isWhiteSpace c) eqn:Hc; [|reflexivity].
  pose proof (trimStart_split (t ++ suf)) as [pre [Hp _]].
  apply (f_equal (@List.length N)) in Hs.
  apply (f_equal (@List.length N)) in Hp.
  cbn [List.length] in Hs. rewrite !length_app in *. lia.
Qed.

Lemma trim_idempotent (s : jsstring) : trim (trim s) = trim s.
Proof.
  unfold trim.
  rewrite (trimStart_trimEnd (trimStart s)) by apply trimStart_idempotent.
  apply trimEnd_idempotent.
Qed.

Lemma trimStart_In (c : N) (s : jsstring) : In c (trimStart s) -> In c s.
Proof.
  destruct (trimStart_split s) as [pre [H _]]. intros Hin.
  rewrite H. apply in_or_app. now right.
Qed.

Lemma trim_In (c : N) (s : jsstring) : In c (trim s) -> In c s.
Proof.
  unfold trim. destruct (trimEnd_split (trimStart s)) as [suf [H _]].
  intros Hin. apply trimStart_In. rewrite H. apply in_or_app. now left.
Qed.

Lemma splitBy_segments (sep : N -> bool) (s : jsstring) :
  Forall (fun seg => forall c, In c seg -> sep c = false) (splitBy sep s).
Proof.
  induction s as [|c s IH]; cbn [splitBy].
  - constructor; [intros c []|constructor].
  - destruct (sep c) eqn:E.
    + constructor; [intros d []|exact IH].
    + destruct (splitBy sep s) as [|seg segs]; inversion IH; subst.
      * constructor; [|constructor]. intros d [<-|[]]. exact E.
      * constructor; [|assumption]. intros d [<-|Hd]; auto.
Qed.

Lemma scanLines_Some (lines : list jsstring) (comment : jsstring) :
  scanLines lines = Some comment ->
  comment <> []
  /\ exists line, In line lines /\ comment = trim (skipn 1 (trim line)).
Proof.
  induction lines as [|line rest IH]; cbn [scanLines]; [discriminate|].
  destruct (JS.truthy (trim line) && negb (startsWith (trim line) (lit "#")));
    [discriminate|].
  assert (Hrest : scanLines rest = Some comment ->
                  comment <> []
                  /\ exists l, In l (line :: rest)
                               /\ comment = trim (skipn 1 (trim l))).
  { intros H. destruct (IH H) as [NE [l [Hl E]]]. split; [exact NE|].
    exists l. split; [now right|exact E]. }
  destruct (startsWith (trim line) (lit "#")); [|exact Hrest].
  destruct (JS.truthy (trim (skipn 1 (trim line)))) eqn:Ht; [|exact Hrest].
  intros H.
  assert (Hc : comment = trim (skipn 1 (trim line))) by congruence.
  subst comment. split.
  - intros E. rewrite E in Ht. discriminate.
  - exists line. split; [now left|reflexivity].
Qed.

(** X1.  The description of a file is never empty, carries no white space
    at either end and holds no line feed, whatever the file contains. *)
Theorem getWorkflowDescription_clean (rawWorkflow : jsstring) :
  getWorkflowDescription rawWorkflow <> []
  /\ trim (getWorkflowDescription rawWorkflow)
     = getWorkflowDescription rawWorkflow
  /\ ~ In 10%N (getWorkflowDescription rawWorkflow).
Proof.
  unfold getWorkflowDescription.
  destruct (scanLines (splitBy (N.eqb 10) rawWorkflow)) as [comment|] eqn:E.
  - apply scanLines_Some in E as [NE [line [Hline ->]]].
    split; [exact NE|]. split; [apply trim_idempotent|].
    intros Hin. apply trim_In in Hin.
    assert (Hin' : In 10%N (trim line)).
    { rewrite <- (firstn_skipn 1 (trim line)). apply in_or_app. now right. }
    apply trim_In in Hin'.
    pose proof (splitBy_segments (N.eqb 10) rawWorkflow) as F.
    rewrite Forall_forall in F. specialize (F line Hline 10%N Hin').
    discriminate.
  - split; [discriminate|]. split; [reflexivity|].
    intros Hin.
    assert (H : forallb (fun c => negb (N.eqb c 10)) noDescription = true)
      by reflexivity.
    rewrite forallb_forall in H. specialize (H _ Hin). discriminate.
Qed.

(** ** The title *)

Lemma stripReusable_no_match (s : jsstring) :
  (forall c, In c s -> upperAscii c <> 82%N) -> stripReusable s = s.
Proof.
  induction s as [|c s IH]; intros H; [reflexivity|].
  cbn [stripReusable].
  assert (E : matchesReusable (c :: s) = false).
  { unfold matchesReusable. cbn [startsWithCI lit map list_ascii_of_string].
    destruct (N.eqb (upperAscii (N_of_ascii "R")) (upperAscii c)) eqn:Hc;
      [|reflexivity].
    apply N.eqb_eq in Hc. exfalso. apply (H c); [now left|]. now rewrite <- Hc. }
  rewrite E. f_equal. apply IH. intros d Hd. apply H. now right.
Qed.

Lemma stripReusable_skip (a rest : jsstring) :
  (forall c, In c a -> upperAscii c <> 82%N) ->
  stripReusable (a ++ rest) = a ++ stripReusable rest.
Proof.
  induction a as [|c a IH]; intros H; [reflexivity|].
  cbn [app stripReusable].
  assert (E : matchesReusable (c :: a ++ rest) = false).
  { unfold matchesReusable. cbn [startsWithCI lit map list_ascii_of_string].
    destruct (N.eqb (upperAscii (N_of_ascii "R")) (upperAscii c)) eqn:Hc;
      [|reflexivity].
    apply N.eqb_eq in Hc. exfalso. apply (H c); [now left|]. now rewrite <- Hc. }
  rewrite E. f_equal. apply IH. intros d Hd. apply H. now right.
Qed.

Lemma matchesReusable_token (word rest : jsstring) (sep : N) :
  map upperAscii word = lit "REUSABLE" ->
  sep = 32%N \/ sep = 46%N ->
  matchesReusable (word ++ sep :: rest) = true.
Proof.
  intros Hw Hs.
  destruct word as [|c0 [|c1 [|c2 [|c3 [|c4 [|c5 [|c6 [|c7 [|c8 word]]]]]]]]];
    try discriminate.
  cbn [map] in Hw. change (lit "REUSABLE")
    with [82; 69; 85; 83; 65; 66; 76; 69]%N in Hw.
  injection Hw as H0 H1 H2 H3 H4 H5 H6 H7.
  unfold matchesReusable.
  cbn [app startsWithCI lit map list_ascii_of_string skipn].
  rewrite H0, H1, H2, H3, H4, H5, H6, H7.
  destruct Hs as [-> | ->]; reflexivity.
Qed.

(** X2.  The token [Reusable] followed by a space or a dot is removed from
    a title in any letter case and wherever it first occurs, not only at the
    head of the title; what precedes and what follows it is kept. *)
Theorem stripReusable_first_occurrence (a word b : jsstring) (sep : N) :
  (forall c, In c a -> upperAscii c <> 82%N) ->
  map upperAscii word = lit "REUSABLE" ->
  sep = 32%N \/ sep = 46%N ->
  stripReusable (a ++ word ++ sep :: b) = a ++ b.
Proof.
  intros Ha Hw Hs. rewrite stripReusable_skip by exact Ha. f_equal.
  pose proof (matchesReusable_token word b sep Hw Hs) as M.
  assert (L : List.length word = 8%nat).
  { apply (f_equal (@List.length N)) in Hw. now rewrite length_map in Hw. }
  destruct (word ++ sep :: b) as [|c t] eqn:E.
  - destruct word; discriminate.
  - cbn [stripReusable]. rewrite M, <- E.
    replace 9%nat with (List.length (word ++ [sep]))
      by (rewrite length_app; simpl; lia).
    change (sep :: b) with ([sep] ++ b). rewrite app_assoc.
    rewrite skipn_app, skipn_all, Nat.sub_diag. reflexivity.
Qed.

Lemma stripReusable_first_occurrence_witness :
  stripReusable (lit "My " ++ lit "reUSABLE" ++ 46%N :: lit "Lint Reusable x")
  = lit "My " ++ lit "Lint Reusable x".
Proof.
  apply (stripReusable_first_occurrence (lit "My ") (lit "reUSABLE")).
  - intros c Hc. cbn in Hc.
    repeat (destruct Hc as [<-|Hc]; [discriminate|]). destruct Hc.
  - reflexivity.
  - now right.
Defined.

(** X3.  At most one occurrence of the token goes: the stripped title is
    the title, or nine code units shorter. *)
Theorem stripReusable_length (s : jsstring) :
  stripReusable s = s
  \/ (List.length (stripReusable s) + 9 = List.length s)%nat.
Proof.
  induction s as [|c s IH].
  - left. reflexivity.
  - cbn [stripReusable]. destruct (matchesReusable (c :: s)) eqn:M.
    + right. unfold matchesReusable in M. apply andb_true_iff in M as [_ M].
      rewrite length_skipn.
      destruct (skipn 8 (c :: s)) as [|d t] eqn:E; [discriminate|].
      apply (f_equal (@List.length N)) in E. rewrite length_skipn in E.
      simpl in E |- *. lia.
    + destruct IH as [->|IH]; [now left|right]. simpl. lia.
Qed.

(** ** The trigger section *)

Lemma tryFile_fields (w : World) (p content : jsstring)
    (workflow : value) (info : Workflow) :
  readFile w p = Ok content ->
  parse w content = Ok workflow ->
  tryFile w p = Ok info ->
  exists props on,
    workflow = VObject props
    /\ on = lookup (lit "on") props
    /\ reusableFlag on = Ok (isReusable info)
    /\ fileName info = Path.basename p None
    /\ inputs info
       = getFieldOpt (getFieldOpt on (lit "workflow_call")) (lit "inputs")
    /\ secrets info
       = getFieldOpt (getFieldOpt on (lit "workflow_call")) (lit "secrets")
    /\ outputs info
       = getFieldOpt (getFieldOpt on (lit "workflow_call")) (lit "outputs").
Proof.
  intros Hr Hp. unfold tryFile, workflowInfo, bind. rewrite Hr, Hp.
  destruct workflow as [| | | | | |props]; cbn [getField callReplace];
    try discriminate.
  destruct (lookup (lit "name") props); cbn [callReplace]; try discriminate.
  destruct (reusableFlag (lookup (lit "on") props)) as [flag|] eqn:Hf;
    [|discriminate].
  intros H. injection H as <-. exists props, (lookup (lit "on") props).
  cbn. repeat split; auto.
Qed.

(** X4.  A record is flagged reusable exactly when the trigger section of
    its file is a mapping that holds the key [workflow_call]; a sequence of
    triggers, or no trigger section, gives a record that is not reusable. *)
Theorem isReusable_iff_workflow_call (w : World) (p content : jsstring)
    (props : list (jsstring * value)) (info : Workflow) :
  readFile w p = Ok content ->
  parse w content = Ok (VObject props) ->
  tryFile w p = Ok info ->
  truthy (isReusable info) = true
  <-> exists triggers,
        lookup (lit "on") props = VObject triggers
        /\ existsb (fun kv => JS.eqb (fst kv) (lit "workflow_call")) triggers
           = true.
Proof.
  intros Hr Hp Ht.
  destruct (tryFile_fields w p content _ info Hr Hp Ht)
    as [props' [on [E [-> [Hf _]]]]].
  injection E as <-. unfold reusableFlag in Hf.
  destruct (truthy (lookup (lit "on") props)) eqn:Hon.
  - destruct (lookup (lit "on") props) as [| |b|x|s|items|triggers] eqn:Eon;
      cbn [hasIn bind] in Hf; try discriminate;
      injection Hf as <-; cbn [truthy].
    + split; [discriminate|]. intros [triggers [E _]]. discriminate.
    + split.
      * intros H. now exists triggers.
      * intros [triggers' [E H]]. injection E as <-. exact H.
  - injection Hf as <-. rewrite Hon. split; [discriminate|].
    intros [triggers [E _]]. rewrite E in Hon. discriminate.
Qed.

(** X5.  A file whose trigger section is a scalar that counts as true (a
    trigger name such as [push], a number, [true]) gives no record: the
    [in] test throws and the file is left out with a warning. *)
Theorem scalar_trigger_fails (w : World) (p content title : jsstring)
    (props : list (jsstring * value)) :
  readFile w p = Ok content ->
  parse w content = Ok (VObject props) ->
  lookup (lit "name") props = VString title ->
  truthy (lookup (lit "on") props) = true ->
  (forall triggers, lookup (lit "on") props <> VObject triggers) ->
  (forall items, lookup (lit "on") props <> VArray items) ->
  exists e, tryFile w p = Throw e
            /\ snd (scanStep w ([], []) p) = [FailedToParse p e].
Proof.
  intros Hr Hp Hn Ht Hobj Harr.
  assert (E : exists e, tryFile w p = Throw e).
  { unfold tryFile, workflowInfo, bind. rewrite Hr, Hp. cbn [getField].
    rewrite Hn. cbn [callReplace]. unfold reusableFlag. rewrite Ht.
    destruct (lookup (lit "on") props) as [| |b|x|s|items|triggers];
      cbn [hasIn bind]; eauto.
    - exfalso. now apply (Harr items).
    - exfalso. now apply (Hobj triggers). }
  destruct E as [e E]. exists e. split; [exact E|].
  unfold scanStep. now rewrite E.
Qed.

(** X6.  The records come in the order of the enumeration, one for each
    file that does not fail and under its path, with the base name of that
    path as file name; the warnings name the files that fail, in order. *)
Theorem scanWorkflows_in_order (w : World) (files : list jsstring)
    (records : list Workflow) :
  glob w workflowsGlob = Ok files ->
  fst (scanWorkflows w) = Ok records ->
  map filePath records = filter (fun p => negb (fails w p)) files
  /\ map warningPath (snd (scanWorkflows w)) = filter (fails w) files
  /\ Forall (fun r => fileName r = Path.basename (filePath r) None) records.
Proof.
  intros Hg. unfold scanWorkflows. rewrite Hg, fold_scanStep.
  cbn [fst snd app]. intros H. injection H as <-. clear Hg.
  unfold recordsOf, warningsOf, fails.
  split; [|split].
  - induction files as [|p files IH]; [reflexivity|]. cbn [flat_map filter].
    destruct (tryFile w p) as [info|] eqn:E; cbn [negb]; [|exact IH].
    cbn [app map]. rewrite IH. f_equal.
    now apply tryFile_Ok in E as [_ [_ [_ [_ [_ [_ [H _]]]]]]].
  - induction files as [|p files IH]; [reflexivity|]. cbn [flat_map filter].
    destruct (tryFile w p) as [info|] eqn:E; [exact IH|].
    cbn [app map warningPath]. now rewrite IH.
  - apply Forall_forall. intros r Hin. apply in_flat_map in Hin as [p [_ Hr]].
    destruct (tryFile w p) as [info|] eqn:E; [|contradiction].
    destruct Hr as [->|[]].
    pose proof E as E'.
    apply tryFile_Ok in E as [content [workflow [_ [Hr [Hp [_ [Hpath _]]]]]]].
    destruct (tryFile_fields w p content workflow r Hr Hp E')
      as [_ [_ [_ [_ [_ [Hname _]]]]]].
    now rewrite Hpath.
Qed.

(* ================================================================== *)
(** * Further properties of the Renderer *)
(* ================================================================== *)

(** ** [wrapText] outside its domain *)

Lemma lastIndexOf_absent (text : jsstring) (c : N) (pos : Z) :
  ~ In c text -> lastIndexOf text [c] pos = -1.
Proof.
  intros Hno.
  destruct (lastIndexOf_char text c pos) as [[H _]|[k [_ [_ H]]]]; [exact H|].
  exfalso. apply Hno. rewrite H. apply in_or_app. right. now left.
Qed.

(** X7.  With a width that is not positive the recursion on a text without
    space never ends: every call cuts off nothing and goes on with the same
    text. *)
Theorem wrapText_nonpositive_width (text : jsstring) (n : Z) (fuel : nat) :
  n <= 0 -> text <> [] -> ~ In 32%N text ->
  wrapText_fuel fuel text n = None.
Proof.
  intros Hn NE Hno. induction fuel as [|fuel IH]; [reflexivity|].
  cbn [wrapText_fuel].
  assert (Hlen : (JS.length text <=? n) = false).
  { apply Z.leb_gt. unfold JS.length. destruct text; [congruence|].
    cbn [List.length]. lia. }
  rewrite Hlen. change (lit " ") with [32%N].
  rewrite lastIndexOf_absent by exact Hno. cbn [Z.eqb].
  assert (Hrest : substringFrom text n = text).
  { unfold substringFrom, clamp.
    replace (Z.to_nat n) with 0%nat by lia. reflexivity. }
  rewrite Hrest, IH. reflexivity.
Qed.

Lemma wrapText_nonpositive_width_witness :
  wrapText_fuel 1000 (lit "deploy") 0 = None.
Proof.
  apply (wrapText_nonpositive_width (lit "deploy") 0 1000).
  - lia.
  - discriminate.
  - cbn. intros H. repeat (destruct H as [H|H]; [discriminate|]). exact H.
Defined.

(** ** The stacked cells *)

Lemma join_head (sep : jsstring) (c : N) (seg : jsstring)
    (segs : list jsstring) :
  exists rest, join sep ((c :: seg) :: segs) = c :: rest.
Proof. cbn [join]. destruct segs; eexists; reflexivity. Qed.

(** X8.  A cell of parameters is the placeholder [*None*] exactly when the
    mapping is absent, falsy or has no key; otherwise it never is. *)
Theorem formatStackedWorkflowDetails_none (columns : value) :
  formatStackedWorkflowDetails columns = lit "*None*"
  <-> truthy columns = false \/ objectKeys columns = [].
Proof.
  unfold formatStackedWorkflowDetails. split.
  - destruct (truthy columns); [|now left].
    destruct (objectKeys columns) as [|key keys]; [now right|].
    cbn [negb orb List.length Nat.eqb map].
    destruct (join_head br 96 (key ++ lit "`") (map backticked keys))
      as [rest E].
    intros H.
    assert (H' : 96%N :: rest = lit "*None*")
      by exact (eq_trans (eq_sym E) H).
    vm_compute in H'. discriminate.
  - intros [-> | ->]; [reflexivity|]. cbn. now rewrite orb_true_r.
Qed.

Lemma split_go_free (s : jsstring) :
  ~ In 60%N s -> split_go br s 0 = [s].
Proof.
  induction s as [|c s IH]; intros H; [reflexivity|].
  cbn [split_go].
  assert (E : startsWith (c :: s) br = false).
  { change br with [60; 98; 114; 62]%N. cbn [startsWith].
    destruct (N.eqb 60 c) eqn:Hc; [|reflexivity].
    apply N.eqb_eq in Hc. exfalso. apply H. now left. }
  rewrite E, IH; [reflexivity|]. intros Hin. apply H. now right.
Qed.

Lemma split_join_free (segs : list jsstring) :
  segs <> [] -> Forall (fun seg => ~ In 60%N seg) segs ->
  split (join br segs) br = segs.
Proof.
  unfold split. induction segs as [|seg segs IH]; intros NE F; [congruence|].
  inversion F as [|? ? Hseg Hsegs]; subst.
  destruct segs as [|seg' segs].
  - cbn [join]. now apply split_go_free.
  - change (join br (seg :: seg' :: segs))
      with (seg ++ br ++ join br (seg' :: segs)).
    rewrite split_app_br by lia.
    rewrite split_go_free by exact Hseg.
    rewrite IH; [reflexivity|discriminate|exact Hsegs].
Qed.

(** X9.  Splitting a cell of parameters at the break markers gives back the
    keys of the mapping, each in backticks and in their order, as long as
    no key holds a [<]. *)
Theorem formatStackedWorkflowDetails_keys (columns : value) :
  truthy columns = true ->
  objectKeys columns <> [] ->
  Forall (fun key => ~ In 60%N key) (objectKeys columns) ->
  split (formatStackedWorkflowDetails columns) br
  = map backticked (objectKeys columns).
Proof.
  intros Ht NE F. unfold formatStackedWorkflowDetails. rewrite Ht.
  destruct (objectKeys columns) as [|key keys] eqn:E; [congruence|].
  cbn [negb orb List.length Nat.eqb]. apply split_join_free; [discriminate|].
  apply Forall_map. eapply Forall_impl; [|exact F].
  intros k Hk Hin. unfold backticked in Hin.
  apply in_app_or in Hin as [Hin|Hin];
    [cbn in Hin; destruct Hin as [|[]]; discriminate|].
  apply in_app_or in Hin as [Hin|Hin]; [now apply Hk|].
  cbn in Hin; destruct Hin as [|[]]; discriminate.
Qed.

(** ** The prefix rules *)

(** X10.  The prefix rules do not overlap: a file name that begins with a
    listed prefix is given the category and the icon of the rule that lists
    it, whatever follows the prefix and wherever the rule stands. *)
Theorem prefix_determines_category (mapping : Mapping)
    (prefix rest : jsstring) :
  In mapping CATEGORY_MAPPINGS ->
  In prefix (prefixes mapping) ->
  getCategoryByFilename (prefix ++ rest)
  = {| category := mappingCategory mapping; icon := mappingIcon mapping |}.
Proof.
  intros Hm Hp. unfold CATEGORY_MAPPINGS in Hm. cbn [In] in Hm.
  repeat (destruct Hm as [<-|Hm];
          [cbn [prefixes In] in Hp;
           repeat (destruct Hp as [<-|Hp]; [reflexivity|]);
           destruct Hp|]).
  destruct Hm.
Qed.

Lemma prefix_determines_category_witness :
  getCategoryByFilename (lit "docs-" ++ lit "site.yml")
  = {| category := lit "Documentation"; icon := [55357; 56538]%N |}.
Proof.
  apply (prefix_determines_category
           {| prefixes := [lit "doc-"; lit "docs-"; lit "generate-"];
              mappingCategory := lit "Documentation";
              mappingIcon := [55357; 56538]%N |}
           (lit "docs-") (lit "site.yml")).
  - cbn. do 6 right. now left.
  - cbn. right. now left.
Defined.

(** ** Grouping by category *)

Lemma jsstring_eqb_sym (s t : jsstring) : JS.eqb s t = JS.eqb t s.
Proof.
  destruct (JS.eqb s t) eqn:E.
  - apply jsstring_eqb_eq in E. subst. symmetry. apply jsstring_eqb_refl.
  - destruct (JS.eqb t s) eqn:E'; [|reflexivity].
    apply jsstring_eqb_eq in E'. subst. now rewrite jsstring_eqb_refl in E.
Qed.

Lemma jsstring_eqb_neq (s t : jsstring) : JS.eqb s t = false <-> s <> t.
Proof.
  split.
  - intros E H. subst. now rewrite jsstring_eqb_refl in E.
  - intros H. destruct (JS.eqb s t) eqn:E; [|reflexivity].
    now apply jsstring_eqb_eq in E.
Qed.

Lemma firstSeen_In (x : jsstring) (l : list jsstring) :
  In x (firstSeen l) <-> In x l.
Proof.
  induction l as [|a l IH]; [reflexivity|]. cbn [firstSeen In].
  rewrite filter_In, IH. split.
  - intros [H|[H _]]; auto.
  - intros [H|H]; [now left|].
    destruct (JS.eqb x a) eqn:E.
    + left. symmetry. now apply jsstring_eqb_eq.
    + right. split; [exact H|reflexivity].
Qed.

Lemma firstSeen_NoDup (l : list jsstring) : NoDup (firstSeen l).
Proof.
  induction l as [|a l IH]; cbn [firstSeen]; constructor.
  - rewrite filter_In. intros [_ H]. now rewrite jsstring_eqb_refl in H.
  - now apply NoDup_filter.
Qed.

Lemma firstSeen_snoc (l : list jsstring) (x : jsstring) :
  firstSeen (l ++ [x])
  = if existsb (fun y => JS.eqb y x) l then firstSeen l
    else firstSeen l ++ [x].
Proof.
  induction l as [|a l IH]; [reflexivity|].
  cbn [app firstSeen existsb]. rewrite IH.
  destruct (JS.eqb a x) eqn:E; cbn [orb].
  - destruct (existsb (fun y => JS.eqb y x) l); [reflexivity|].
    rewrite filter_app. cbn [filter].
    rewrite (jsstring_eqb_sym x a), E. cbn [negb]. now rewrite app_nil_r.
  - destruct (existsb (fun y => JS.eqb y x) l); [reflexivity|].
    rewrite filter_app. cbn [filter].
    rewrite (jsstring_eqb_sym x a), E. reflexivity.
Qed.

Section Grouping.

Variables (workflows : list Workflow) (workflow : Workflow).

Lemma categoryEntry_other (k : jsstring) :
  k <> categoryOf workflow ->
  categoryEntry (workflows ++ [workflow]) k = categoryEntry workflows k.
Proof.
  intros H.
  assert (E : inCategory k workflow = false).
  { unfold inCategory. apply jsstring_eqb_neq. intros E. apply H.
    now rewrite <- E. }
  unfold categoryEntry. rewrite filter_app. cbn [filter].
  now rewrite E, app_nil_r.
Qed.

Lemma categoryEntry_same :
  categoryEntry (workflows ++ [workflow]) (categoryOf workflow)
  = (categoryOf workflow,
     (match filter (inCategory (categoryOf workflow)) workflows with
      | first :: _ => icon (categorizeWorkflow first)
      | [] => icon (categorizeWorkflow workflow)
      end,
      filter (inCategory (categoryOf workflow)) workflows ++ [workflow])).
Proof.
  assert (E : inCategory (categoryOf workflow) workflow = true)
    by apply jsstring_eqb_refl.
  unfold categoryEntry. rewrite filter_app. cbn [filter]. rewrite E.
  now destruct (filter (inCategory (categoryOf workflow)) workflows).
Qed.

Lemma addToCategory_new (keys : list jsstring) :
  ~ In (categoryOf workflow) keys ->
  addToCategory (categorizeWorkflow workflow) workflow
    (map (categoryEntry workflows) keys)
  = map (categoryEntry (workflows ++ [workflow])) keys
    ++ [(categoryOf workflow,
         (icon (categorizeWorkflow workflow), [workflow]))].
Proof.
  induction keys as [|k keys IH]; intros Hno; [reflexivity|].
  cbn [map]. unfold categoryEntry at 1. cbn [addToCategory].
  fold (categoryOf workflow).
  replace (JS.eqb k (categoryOf workflow)) with false
    by (symmetry; apply jsstring_eqb_neq; intros ->; apply Hno; now left).
  fold (categoryEntry workflows k).
  rewrite IH by (intros H; apply Hno; now right).
  rewrite categoryEntry_other by (intros ->; apply Hno; now left).
  reflexivity.
Qed.

Lemma addToCategory_known (keys : list jsstring) :
  NoDup keys -> In (categoryOf workflow) keys ->
  In (categoryOf workflow) (map categoryOf workflows) ->
  addToCategory (categorizeWorkflow workflow) workflow
    (map (categoryEntry workflows) keys)
  = map (categoryEntry (workflows ++ [workflow])) keys.
Proof.
  intros ND Hin Hcat. induction keys as [|k keys IH]; [destruct Hin|].
  inversion ND as [|? ? Hk ND']; subst.
  cbn [map]. unfold categoryEntry at 1. cbn [addToCategory].
  fold (categoryOf workflow).
  destruct (JS.eqb k (categoryOf workflow)) eqn:E.
  - apply jsstring_eqb_eq in E. subst k.
    rewrite categoryEntry_same.
    assert (NE : filter (inCategory (categoryOf workflow)) workflows <> []).
    { apply in_map_iff in Hcat as [w' [Hw' Hin']].
      intros E.
      assert (Hf : In w' (filter (inCategory (categoryOf workflow))
                            workflows)).
      { apply filter_In. split; [exact Hin'|]. unfold inCategory.
        rewrite Hw'. apply jsstring_eqb_refl. }
      rewrite E in Hf. destruct Hf. }
    destruct (filter (inCategory (categoryOf workflow)) workflows)
      as [|first group];
      [congruence|].
    f_equal. apply map_ext_in. intros k' Hk'. symmetry.
    apply categoryEntry_other. intros ->. contradiction.
  - fold (categoryEntry workflows k).
    assert (Hne : k <> categoryOf workflow) by now apply jsstring_eqb_neq.
    destruct Hin as [->|Hin]; [congruence|].
    rewrite IH by assumption.
    now rewrite categoryEntry_other.
Qed.

End Grouping.

Lemma filter_unseen (workflows : list Workflow) (key : jsstring) :
  existsb (fun y => JS.eqb y key) (map categoryOf workflows) = false ->
  filter (inCategory key) workflows = [].
Proof.
  induction workflows as [|w ws IH]; [reflexivity|].
  cbn [map existsb filter]. intros E. apply orb_false_iff in E as [E1 E2].
  unfold inCategory at 1. rewrite E1. now apply IH.
Qed.

(** The map of the table, entry by entry. *)
Lemma groupByCategory_entries (workflows : list Workflow) :
  groupByCategory workflows
  = map (categoryEntry workflows) (firstSeen (map categoryOf workflows)).
Proof.
  induction workflows as [|workflow workflows IH] using rev_ind;
    [reflexivity|].
  unfold groupByCategory in *. rewrite fold_left_app. cbn [fold_left].
  rewrite IH, map_app. cbn [map]. rewrite firstSeen_snoc.
  destruct (existsb (fun y => JS.eqb y (categoryOf workflow))
              (map categoryOf workflows)) eqn:E.
  - apply addToCategory_known.
    + apply firstSeen_NoDup.
    + apply firstSeen_In. apply existsb_exists in E as [y [Hy Ey]].
      apply jsstring_eqb_eq in Ey. now subst.
    + apply existsb_exists in E as [y [Hy Ey]].
      apply jsstring_eqb_eq in Ey. now subst.
  - rewrite map_app. cbn [map].
    rewrite addToCategory_new.
    + f_equal. rewrite categoryEntry_same.
      replace (filter (inCategory (categoryOf workflow)) workflows)
        with (@nil Workflow); [reflexivity|].
      symmetry. now apply filter_unseen.
    + rewrite firstSeen_In. intros Hin.
      assert (existsb (fun y => JS.eqb y (categoryOf workflow))
                (map categoryOf workflows) = true).
      { apply existsb_exists. exists (categoryOf workflow).
        split; [exact Hin|apply jsstring_eqb_refl]. }
      congruence.
Qed.

(** X11.  The categories of the table are distinct and stand in the order
    in which they first occur among the records; each one holds exactly the
    records of its category, in the order of the input, at least one, and
    carries the icon of its first record. *)
Theorem groupByCategory_first_seen (workflows : list Workflow) :
  map fst (groupByCategory workflows)
  = firstSeen (map categoryOf workflows)
  /\ NoDup (map fst (groupByCategory workflows))
  /\ Forall (fun entry =>
               let '(key, (ic, group)) := entry in
               group = filter (inCategory key) workflows
               /\ exists first rest,
                    group = first :: rest
                    /\ ic = icon (categorizeWorkflow first))
       (groupByCategory workflows).
Proof.
  rewrite groupByCategory_entries.
  assert (Hkeys : map fst (map (categoryEntry workflows)
                             (firstSeen (map categoryOf workflows)))
                  = firstSeen (map categoryOf workflows)).
  { rewrite map_map. cbn [categoryEntry fst]. apply map_id. }
  split; [exact Hkeys|]. split; [rewrite Hkeys; apply firstSeen_NoDup|].
  apply Forall_forall. intros [key [ic group]] Hin.
  apply in_map_iff in Hin as [k [E Hk]]. unfold categoryEntry in E.
  injection E as <- <- <-. split; [reflexivity|].
  apply firstSeen_In, in_map_iff in Hk as [w [Hw Hin]].
  assert (Hf : In w (filter (inCategory k) workflows)).
  { apply filter_In. split; [exact Hin|]. unfold inCategory. rewrite Hw.
    apply jsstring_eqb_refl. }
  destruct (filter (inCategory k) workflows) as [|first rest];
    [destruct Hf|]. now exists first, rest.
Qed.

Lemma filter_disjoint_app (A : Type) (p q : A -> bool) (l : list A) :
  (forall x, In x l -> p x = true -> q x = false) ->
  Permutation (filter p l ++ filter q l) (filter (fun x => p x || q x) l).
Proof.
  induction l as [|a l IH]; intros H; [constructor|].
  assert (IH' := IH (fun x Hx => H x (or_intror Hx))). cbn [filter].
  destruct (p a) eqn:Ep; cbn [orb].
  - rewrite (H a (or_introl eq_refl) Ep). cbn [app]. now constructor.
  - destruct (q a).
    + etransitivity; [symmetry; apply Permutation_middle|]. now constructor.
    + exact IH'.
Qed.

Lemma groups_partition (workflows : list Workflow) (keys : list jsstring) :
  NoDup keys ->
  Permutation
    (List.concat (map (fun key => filter (inCategory key) workflows) keys))
    (filter (fun w => existsb (JS.eqb (categoryOf w)) keys) workflows).
Proof.
  induction keys as [|k keys IH]; intros ND.
  - cbn. induction workflows; [constructor|assumption].
  - inversion ND as [|? ? Hk ND']; subst. cbn [map List.concat existsb].
    etransitivity; [apply Permutation_app_head, IH, ND'|].
    apply (filter_disjoint_app _ (inCategory k)).
    intros w _ Hw. unfold inCategory in Hw. apply jsstring_eqb_eq in Hw.
    destruct (existsb (JS.eqb (categoryOf w)) keys) eqn:E; [|reflexivity].
    apply existsb_exists in E as [y [Hy Ey]]. apply jsstring_eqb_eq in Ey.
    congruence.
Qed.

(** X12.  Grouping loses and repeats nothing: the records of all the
    categories together are the records given, up to their order. *)
Theorem groupByCategory_partition (workflows : list Workflow) :
  Permutation
    (List.concat (map (fun entry => snd (snd entry))
                    (groupByCategory workflows)))
    workflows.
Proof.
  rewrite groupByCategory_entries, map_map. cbn [categoryEntry snd].
  etransitivity; [apply groups_partition, firstSeen_NoDup|].
  replace (filter _ workflows) with workflows; [reflexivity|].
  symmetry. apply forallb_filter_id. apply forallb_forall. intros w Hw.
  apply existsb_exists. exists (categoryOf w). split.
  - apply firstSeen_In. now apply in_map.
  - apply jsstring_eqb_refl.
Qed.

(** ** The workflows section *)

Lemma addToCategory_nonempty (cat : Category) (workflow : Workflow)
    (m : CategoriesMap) :
  addToCategory cat workflow m <> [].
Proof.
  destruct m as [|[k [ic ws]] m]; cbn [addToCategory]; [discriminate|].
  destruct (JS.eqb k (category cat)); discriminate.
Qed.

Lemma groupByCategory_nil (workflows : list Workflow) :
  groupByCategory workflows = [] -> workflows = [].
Proof.
  destruct workflows as [|w ws] using rev_ind; [reflexivity|].
  unfold groupByCategory. rewrite fold_left_app. cbn [fold_left].
  intros H. now apply addToCategory_nonempty in H.
Qed.

(** X13.  Records that are not reusable never show in the workflows
    section: it is computed from the reusable ones alone, and it is the
    line "No reusable workflows found." exactly when there is none. *)
Theorem renderWorkflowsSection_reusable_only (workflows : list Workflow) :
  renderWorkflowsSection workflows
  = renderWorkflowsSection
      (filter (fun w => truthy (isReusable w)) workflows)
  /\ (renderWorkflowsSection workflows
      = lit "No reusable workflows found." ++ nl
      <-> Forall (fun w => truthy (isReusable w) = false) workflows).
Proof.
  split.
  - unfold renderWorkflowsSection.
    now rewrite (forallb_filter_id _ (filter _ workflows))
      by (apply forallb_forall; intros w Hw; now apply filter_In in Hw).
  - unfold renderWorkflowsSection. split.
    + destruct (groupByCategory
                  (filter (fun w => truthy (isReusable w)) workflows))
        as [|entry m] eqn:E.
      * intros _. apply groupByCategory_nil in E.
        apply Forall_forall. intros w Hw.
        destruct (truthy (isReusable w)) eqn:T; [|reflexivity].
        assert (In w (filter (fun w => truthy (isReusable w)) workflows))
          by (apply filter_In; auto).
        rewrite E in H. destruct H.
      * cbn [List.length Nat.eqb]. intros H. vm_compute in H. discriminate.
    + intros F.
      replace (filter (fun w => truthy (isReusable w)) workflows)
        with (@nil Workflow); [reflexivity|].
      symmetry. induction F as [|w ws Hw _ IH]; [reflexivity|].
      cbn [filter]. now rewrite Hw.
Qed.

(** ** The folder tree *)

Section Tree.

Variable w : World.
Variables (total : nat) (hasActions : bool).

Lemma workflowLine_step (structure lastCategory : jsstring) (i : nat)
    (path fileName : jsstring) :
  exists header,
    workflowLine w total hasActions (structure, lastCategory, i)
      (path, fileName)
    = (structure ++ header ++ lineAt w total hasActions i path fileName,
       category (getCategoryByFilename fileName), S i).
Proof.
  unfold workflowLine, lineAt, typeAnnotation.
  destruct (JS.eqb (category (getCategoryByFilename fileName)) lastCategory)
    eqn:E; cbn [negb].
  - exists []. apply jsstring_eqb_eq in E. subst lastCategory. reflexivity.
  - eexists. f_equal. f_equal. symmetry. apply app_assoc.
Qed.

Lemma fold_workflowLine_grows (l : list (jsstring * jsstring)) :
  forall structure lastCategory i,
  exists added lastCategory',
    fold_left (workflowLine w total hasActions) l
      (structure, lastCategory, i)
    = (structure ++ added, lastCategory', (i + List.length l)%nat).
Proof.
  induction l as [|[path fileName] l IH]; intros structure lastCategory i.
  - exists [], lastCategory. cbn. now rewrite app_nil_r, Nat.add_0_r.
  - cbn [fold_left].
    destruct (workflowLine_step structure lastCategory i path fileName)
      as [header Hs].
    destruct (IH (structure ++ header
                  ++ lineAt w total hasActions i path fileName)
                (category (getCategoryByFilename fileName)) (S i))
      as [added [lc Hf]].
    exists (header ++ lineAt w total hasActions i path fileName ++ added), lc.
    etransitivity;
      [exact (f_equal (fold_left (workflowLine w total hasActions) l) Hs)|].
    etransitivity; [exact Hf|].
    f_equal; [f_equal; now rewrite <- !app_assoc|cbn [List.length]; lia].
Qed.

(** The line of the file that stands at a given place of the sorted list. *)
Lemma fold_workflowLine_at (l1 l2 : list (jsstring * jsstring))
    (path fileName : jsstring) (structure lastCategory : jsstring) :
  exists pre post,
    fst (fst (fold_left (workflowLine w total hasActions)
                (l1 ++ (path, fileName) :: l2)
                (structure, lastCategory, O)))
    = structure ++ pre
      ++ lineAt w total hasActions (List.length l1) path fileName ++ post.
Proof.
  destruct (fold_workflowLine_grows l1 structure lastCategory O)
    as [added1 [lc1 H1]]. cbn [Nat.add] in H1.
  destruct (workflowLine_step (structure ++ added1) lc1 (List.length l1)
              path fileName) as [header Hs].
  destruct (fold_workflowLine_grows l2
              ((structure ++ added1) ++ header
               ++ lineAt w total hasActions (List.length l1) path fileName)
              (category (getCategoryByFilename fileName))
              (S (List.length l1))) as [added2 [lc2 H2]].
  exists (added1 ++ header), added2.
  rewrite fold_left_app. cbn [fold_left].
  etransitivity;
    [exact (f_equal
              (fun st => fst (fst (fold_left
                                     (workflowLine w total hasActions) l2
                                     (workflowLine w total hasActions st
                                        (path, fileName)))))
              H1)|].
  etransitivity;
    [exact (f_equal
              (fun st => fst (fst (fold_left
                                     (workflowLine w total hasActions) l2
                                     st)))
              Hs)|].
  etransitivity; [exact (f_equal (fun st => fst (fst st)) H2)|].
  cbn [fst]. now rewrite <- !app_assoc.
Qed.

End Tree.

Lemma actionLines_step (total : nat) (structure : jsstring) (i : nat)
    (actionDir : jsstring) :
  actionDir <> [] ->
  actionLines total (structure, i) actionDir
  = (structure ++ actionBlock (i =? total - 1)%nat actionDir, S i).
Proof.
  intros NE. unfold actionLines, actionBlock.
  destruct actionDir; [congruence|]. reflexivity.
Qed.

Lemma fold_actionLines_grows (total : nat) (l : list jsstring) :
  forall structure i,
  exists added,
    fold_left (actionLines total) l (structure, i)
    = (structure ++ added, (i + List.length l)%nat).
Proof.
  induction l as [|d l IH]; intros structure i.
  - exists []. cbn. now rewrite app_nil_r, Nat.add_0_r.
  - cbn [fold_left]. destruct d as [|c d].
    + cbn [actionLines JS.truthy negb].
      destruct (IH structure (S i)) as [a Ha].
      exists a. etransitivity; [exact Ha|]. f_equal. cbn [List.length]. lia.
    + destruct (IH (structure ++ actionBlock (i =? total - 1)%nat (c :: d))
                  (S i)) as [a Ha].
      exists (actionBlock (i =? total - 1)%nat (c :: d) ++ a).
      etransitivity;
        [exact (f_equal (fold_left (actionLines total) l)
                  (actionLines_step total structure i (c :: d)
                     ltac:(discriminate)))|].
      etransitivity; [exact Ha|].
      f_equal; [now rewrite <- app_assoc|cbn [List.length]; lia].
Qed.

Lemma fold_actionLines_at (total : nat) (l1 l2 : list jsstring)
    (actionDir structure : jsstring) :
  actionDir <> [] ->
  exists pre post,
    fst (fold_left (actionLines total) (l1 ++ actionDir :: l2) (structure, O))
    = structure ++ pre
      ++ actionBlock (List.length l1 =? total - 1)%nat actionDir ++ post.
Proof.
  intros NE.
  destruct (fold_actionLines_grows total l1 structure O) as [a1 H1].
  cbn [Nat.add] in H1.
  destruct (fold_actionLines_grows total l2
              ((structure ++ a1)
               ++ actionBlock (List.length l1 =? total - 1)%nat actionDir)
              (S (List.length l1))) as [a2 H2].
  exists a1, a2. rewrite fold_left_app. cbn [fold_left].
  etransitivity;
    [exact (f_equal
              (fun st => fst (fold_left (actionLines total) l2
                                (actionLines total st actionDir)))
              H1)|].
  etransitivity;
    [exact (f_equal
              (fun st => fst (fold_left (actionLines total) l2 st))
              (actionLines_step total (structure ++ a1) (List.length l1)
                 actionDir NE))|].
  etransitivity; [exact (f_equal fst H2)|].
  cbn [fst]. now rewrite <- !app_assoc.
Qed.

(** The sort keeps the files. *)
Lemma insertSorted_perm (cmp : jsstring -> jsstring -> Z)
    (x : jsstring * jsstring) (l : list (jsstring * jsstring)) :
  Permutation (insertSorted cmp x l) (x :: l).
Proof.
  induction l as [|y l IH]; cbn [insertSorted]; [reflexivity|].
  destruct (cmp (snd x) (snd y) <=? 0); [reflexivity|].
  etransitivity; [apply perm_skip, IH|apply perm_swap].
Qed.

Lemma sortByFileName_perm (cmp : jsstring -> jsstring -> Z)
    (l : list (jsstring * jsstring)) :
  Permutation (sortByFileName cmp l) l.
Proof.
  induction l as [|x l IH]; [constructor|].
  unfold sortByFileName in *. cbn [fold_right].
  etransitivity; [apply insertSorted_perm|now constructor].
Qed.

(** The text of the tree, with the two loops still folded. *)
Lemma generateFolderStructure_Ok (w : World) (files dirs : list jsstring) :
  glob w workflowsGlob = Ok files ->
  glob w actionsGlob = Ok dirs ->
  exists body,
    generateFolderStructure w
    = Ok (lit "```" ++ nl ++ lit ".github/" ++ nl ++ body ++ lit "```").
Proof.
  intros Hf Hd. unfold generateFolderStructure, bind. rewrite Hf, Hd.
  set (sorted := sortByFileName (localeCompare w)
                   (map (fun p => (p, Path.basename p None)) files)).
  set (s0 := lit "```" ++ nl ++ lit ".github/" ++ nl).
  set (h1 := tee ++ lit " workflows/          # GitHub Actions Workflows"
             ++ nl).
  set (h2 := elbow ++ lit " actions/            # Custom Composite Actions"
             ++ nl).
  set (s1 := if (0 <? List.length files)%nat
             then fst (fst (fold_left
                              (workflowLine w (List.length sorted)
                                 (0 <? List.length dirs)%nat)
                              sorted (s0 ++ h1, [], O)))
             else s0).
  assert (H1 : exists b1, s1 = s0 ++ b1).
  { unfold s1. destruct (0 <? List.length files)%nat.
    - destruct (fold_workflowLine_grows w (List.length sorted)
                  (0 <? List.length dirs)%nat sorted (s0 ++ h1) [] O)
        as [a [lc Ha]].
      exists (h1 ++ a).
      etransitivity; [exact (f_equal (fun st => fst (fst st)) Ha)|].
      cbn [fst]. now rewrite <- app_assoc.
    - exists []. now rewrite app_nil_r. }
  destruct H1 as [b1 E1]. clearbody s1. subst s1.
  destruct (0 <? List.length dirs)%nat.
  - destruct (fold_actionLines_grows (List.length dirs) dirs
                ((s0 ++ b1) ++ h2) O) as [a Ha].
    exists (b1 ++ h2 ++ a). f_equal.
    etransitivity;
      [exact (f_equal (fun st => fst st ++ lit "```") Ha)|].
    cbn [fst]. unfold s0. now rewrite <- !app_assoc.
  - exists b1. reflexivity.
Qed.

(** X14.  The folder tree fails only with a glob walk, and with its error;
    files that cannot be read do not make it fail.  When it is produced it
    is a fenced block that opens with the [.github/] line. *)
Theorem generateFolderStructure_outcome (w : World) :
  (forall e,
     generateFolderStructure w = Throw e
     <-> glob w workflowsGlob = Throw e
         \/ (exists files, glob w workflowsGlob = Ok files)
            /\ glob w actionsGlob = Throw e)
  /\ (forall tree,
        generateFolderStructure w = Ok tree ->
        exists body,
          tree = lit "```" ++ nl ++ lit ".github/" ++ nl ++ body ++ lit "```").
Proof.
  split.
  - intros e. destruct (glob w workflowsGlob) as [files|e1] eqn:Hf.
    + destruct (glob w actionsGlob) as [dirs|e2] eqn:Hd.
      * destruct (generateFolderStructure_Ok w files dirs Hf Hd) as [b ->].
        split; [discriminate|]. intros [H|[_ H]]; discriminate.
      * unfold generateFolderStructure, bind. rewrite Hf, Hd. split.
        -- intros H. injection H as ->. right. split; [now exists files|].
           reflexivity.
        -- intros [H|[_ H]]; [discriminate|]. now injection H as ->.
    + unfold generateFolderStructure, bind. rewrite Hf. split.
      * intros H. injection H as ->. now left.
      * intros [H|[[files H] _]]; [|discriminate]. now injection H as ->.
  - intros tree H.
    destruct (glob w workflowsGlob) as [files|e1] eqn:Hf;
      [|unfold generateFolderStructure, bind in H; rewrite Hf in H;
        discriminate].
    destruct (glob w actionsGlob) as [dirs|e2] eqn:Hd;
      [|unfold generateFolderStructure, bind in H; rewrite Hf, Hd in H;
        discriminate].
    destruct (generateFolderStructure_Ok w files dirs Hf Hd) as [b E].
    rewrite E in H. injection H as <-. now exists b.
Qed.

Lemma last_index (A : Type) (l1 l2 : list A) (x : A) :
  (List.length l1 =? List.length (l1 ++ x :: l2) - 1)%nat = isNil l2.
Proof.
  rewrite length_app. cbn [List.length]. destruct l2; cbn [isNil List.length].
  - apply Nat.eqb_eq. lia.
  - apply Nat.eqb_neq. lia.
Qed.

Lemma positive_length (A : Type) (l : list A) :
  (0 <? List.length l)%nat = negb (isNil l).
Proof. now destruct l. Qed.

(** The line of the workflow file at a given place of the sorted list. *)
Lemma folderTree_line_at (w : World) (files dirs : list jsstring)
    (tree p : jsstring) (l1 l2 : list (jsstring * jsstring)) :
  glob w workflowsGlob = Ok files ->
  glob w actionsGlob = Ok dirs ->
  generateFolderStructure w = Ok tree ->
  sortByFileName (localeCompare w)
    (map (fun p => (p, Path.basename p None)) files)
  = l1 ++ (p, Path.basename p None) :: l2 ->
  exists pre post,
    tree = pre
           ++ fileLine w (if isNil l2 && isNil dirs then elbow else tee) p
           ++ post.
Proof.
  intros Hf Hd Ht Hs. unfold generateFolderStructure, bind in Ht.
  rewrite Hf, Hd, Hs in Ht.
  assert (NE : (0 <? List.length files)%nat = true).
  { destruct files; [|reflexivity]. cbn in Hs. destruct l1; discriminate. }
  rewrite NE in Ht.
  assert (C : (List.length l1
               =? List.length (l1 ++ (p, Path.basename p None) :: l2) - 1)%nat
              && negb (0 <? List.length dirs)%nat
              = isNil l2 && isNil dirs).
  { now rewrite last_index, positive_length, negb_involutive. }
  match type of Ht with
  | context [fst (fst (fold_left ?f ?l (?s, ?c, O)))] =>
      destruct (fold_workflowLine_at w
                  (List.length (l1 ++ (p, Path.basename p None) :: l2))
                  (0 <? List.length dirs)%nat l1 l2 p
                  (Path.basename p None) s c) as [pre [post E]];
      set (S1 := fst (fst (fold_left f l (s, c, O)))) in Ht;
      assert (E' : S1 = s ++ pre
                        ++ fileLine w
                             (if isNil l2 && isNil dirs then elbow else tee) p
                        ++ post)
        by (rewrite <- C; exact E)
  end.
  clearbody S1. subst S1. clear E. apply Ok_inj in Ht. subst tree.
  match goal with
  | |- context [?s ++ pre ++ ?l ++ post] => generalize l; generalize s
  end.
  intros header line.
  destruct (0 <? List.length dirs)%nat.
  - match goal with
    | |- context [fold_left _ dirs (_ ++ ?hh, O)] => generalize hh
    end.
    intros h.
    match goal with
    | |- context [fold_left _ dirs (?s, O)] =>
        destruct (fold_actionLines_grows (List.length dirs) dirs s O)
          as [a Ha]
    end.
    exists (header ++ pre), (post ++ h ++ a ++ lit "```").
    etransitivity; [exact (f_equal (fun st => fst st ++ lit "```") Ha)|].
    cbn [fst]. generalize (lit "```"). intros fence.
    now rewrite <- !app_assoc.
  - exists (header ++ pre), (post ++ lit "```").
    generalize (lit "```"). intros fence. now rewrite <- !app_assoc.
Qed.

(** X15.  Every workflow file of the enumeration, reusable or not, has its
    line in the folder tree: a connector, the file's base name and its
    annotation, which is empty when the file cannot be read. *)
Theorem folderTree_lists_every_workflow (w : World)
    (files dirs : list jsstring) (tree p : jsstring) :
  glob w workflowsGlob = Ok files ->
  glob w actionsGlob = Ok dirs ->
  generateFolderStructure w = Ok tree ->
  In p files ->
  exists pre connector post,
    (connector = tee \/ connector = elbow)
    /\ tree = pre ++ fileLine w connector p ++ post.
Proof.
  intros Hf Hd Ht Hin.
  assert (Hs : In (p, Path.basename p None)
                 (sortByFileName (localeCompare w)
                    (map (fun p => (p, Path.basename p None)) files))).
  { eapply Permutation_in; [symmetry; apply sortByFileName_perm|].
    now apply (in_map (fun p => (p, Path.basename p None))). }
  apply in_split in Hs as [l1 [l2 Hs]].
  destruct (folderTree_line_at w files dirs tree p l1 l2 Hf Hd Ht Hs)
    as [pre [post E]].
  exists pre, (if isNil l2 && isNil dirs then elbow else tee), post.
  split; [|exact E]. destruct (isNil l2 && isNil dirs); auto.
Qed.

(** X16.  The line of a workflow file ends the tree's branch, with the
    terminal connector, exactly when the file is the last of the sorted
    list and there is no action directory; every other file line has the
    interior connector. *)
Theorem folderTree_terminal_connector (w : World)
    (files dirs : list jsstring) (tree p : jsstring)
    (l1 l2 : list (jsstring * jsstring)) :
  glob w workflowsGlob = Ok files ->
  glob w actionsGlob = Ok dirs ->
  generateFolderStructure w = Ok tree ->
  sortByFileName (localeCompare w)
    (map (fun p => (p, Path.basename p None)) files)
  = l1 ++ (p, Path.basename p None) :: l2 ->
  exists pre post,
    tree = pre
           ++ fileLine w (if isNil l2 && isNil dirs then elbow else tee) p
           ++ post.
Proof. apply folderTree_line_at. Qed.

(** X17.  Every action directory with a name has its two lines in the
    folder tree, the directory and its [action.yml]; the last directory of
    the enumeration has the terminal connector and no bar before its
    child. *)
Theorem folderTree_lists_every_action (w : World)
    (files l1 l2 : list jsstring) (tree actionDir : jsstring) :
  glob w workflowsGlob = Ok files ->
  glob w actionsGlob = Ok (l1 ++ actionDir :: l2) ->
  generateFolderStructure w = Ok tree ->
  actionDir <> [] ->
  exists pre post, tree = pre ++ actionBlock (isNil l2) actionDir ++ post.
Proof.
  intros Hf Hd Ht NE. unfold generateFolderStructure, bind in Ht.
  rewrite Hf, Hd in Ht.
  assert (Hpos : (0 <? List.length (l1 ++ actionDir :: l2))%nat = true).
  { rewrite length_app. cbn [List.length]. apply Nat.ltb_lt. lia. }
  rewrite Hpos in Ht.
  match type of Ht with
  | context [fold_left (actionLines _) _ (?st, O)] =>
      destruct (fold_actionLines_at (List.length (l1 ++ actionDir :: l2))
                  l1 l2 actionDir st NE) as [pre [post E]];
      revert Ht E; generalize st
  end.
  intros s Ht E.
  rewrite last_index in E. apply Ok_inj in Ht. subst tree.
  exists (s ++ pre), (post ++ lit "```").
  etransitivity; [exact (f_equal (fun t => t ++ lit "```") E)|].
  generalize (lit "```"), (actionBlock (isNil l2) actionDir).
  intros fence block. now rewrite <- !app_assoc.
Qed.

(** ** Starting afresh, and the whole run *)

Lemma splice_empty (workflowsSection folderStructureSection : jsstring) :
  splice [] workflowsSection folderStructureSection
  = generatedBlock workflowsSection folderStructureSection.
Proof.
  unfold splice.
  change (substring [] 0 (indexOf [] beginWorkflows)) with (@nil N).
  change (substringFrom []
            (indexOf [] endFolderStructure + JS.length endFolderStructure))
    with (@nil N).
  cbn [app]. apply app_nil_r.
Qed.

(** X18.  Starting afresh: when [README.md] cannot be read, or is empty,
    the document written is the generated block and nothing else. *)
Theorem generateDocumentation_starts_fresh (w : World)
    (workflows : list Workflow) (tree : jsstring) :
  (forall content, readFile w readmePath = Ok content -> content = []) ->
  generateFolderStructure w = Ok tree ->
  generateDocumentation w workflows
  = Ok (Some (generatedBlock (renderWorkflowsSection workflows)
                (renderFolderStructureSection tree))).
Proof.
  intros Hread Htree.
  rewrite (generateDocumentation_splices w workflows tree Htree).
  do 2 f_equal. rewrite <- splice_empty. f_equal.
  destruct (readFile w readmePath) as [content|e]; [|reflexivity].
  now apply Hread.
Qed.

Lemma scanWorkflows_Ok (w : World) (files : list jsstring) :
  glob w workflowsGlob = Ok files ->
  scanWorkflows w = (Ok (recordsOf w files), warningsOf w files).
Proof.
  intros Hf. unfold scanWorkflows. now rewrite Hf, fold_scanStep.
Qed.

(** A stack that allows more nested calls than a text has code units is
    deep enough for it. *)
Lemma wrapsWithin_short (stack : nat) (text : jsstring) (n : Z) :
  0 < n -> (List.length text < stack)%nat -> wrapsWithin stack text n = true.
Proof.
  intros Hn Hlen. destruct (wrapText_total text n Hn) as [r Hr].
  unfold wrapsWithin. now rewrite (Hr stack Hlen).
Qed.

Lemma rendersWithin_short (stack : nat) (workflows : list Workflow) :
  (forall r, In r workflows ->
             (List.length (name r) < stack)%nat
             /\ (List.length (description r) < stack)%nat) ->
  rendersWithin stack workflows = true.
Proof.
  intros H. unfold rendersWithin. apply forallb_forall. intros r Hr.
  apply filter_In in Hr as [Hr _]. destruct (H r Hr) as [Hname Hdesc].
  unfold rowWithin. rewrite (wrapsWithin_short stack (name r) 25) by easy.
  destruct (JS.truthy (description r)
            && negb (JS.eqb (description r) noDescription));
    [|reflexivity].
  now apply wrapsWithin_short.
Qed.

Lemma main_run (w : World) (writeFile : Writer) (stack : nat)
    (files dirs : list jsstring) :
  glob w workflowsGlob = Ok files ->
  glob w actionsGlob = Ok dirs ->
  rendersWithin stack (recordsOf w files) = true ->
  exists tree content,
    generateFolderStructure w = Ok tree
    /\ content = splice (match readFile w readmePath with
                         | Ok content => content
                         | Throw _ => []
                         end)
                   (renderWorkflowsSection (recordsOf w files))
                   (renderFolderStructureSection tree)
    /\ generateDocumentation w (recordsOf w files) = Ok (Some content)
    /\ main w writeFile stack
       = match writeFile readmePath content with
         | Ok _ => {| ended := Completed;
                      warnings := warningsOf w files;
                      readme := Some content |}
         | Throw e => {| ended := Exit1 e;
                         warnings := warningsOf w files;
                         readme := None |}
         end.
Proof.
  intros Hf Hd Hr.
  destruct (generateFolderStructure_Ok w files dirs Hf Hd) as [body Ht].
  eexists. eexists. split; [exact Ht|]. split; [reflexivity|].
  pose proof (generateDocumentation_splices w (recordsOf w files) _ Ht) as Hg.
  split; [exact Hg|].
  unfold main. rewrite (scanWorkflows_Ok w files Hf), Hr. cbn [negb].
  now rewrite Hg.
Qed.

(** X19.  On an engine whose stack the recursion of [wrapText] does not
    exceed, when both glob walks succeed and [README.md] can be written,
    the run completes, whatever the files hold otherwise: it logs one
    warning for each file that fails and writes the document spliced from
    the records of the others and the folder tree. *)
Theorem main_completes (w : World) (writeFile : Writer) (stack : nat)
    (files dirs : list jsstring) :
  glob w workflowsGlob = Ok files ->
  glob w actionsGlob = Ok dirs ->
  rendersWithin stack (recordsOf w files) = true ->
  (forall content, writeFile readmePath content = Ok tt) ->
  ended (main w writeFile stack) = Completed
  /\ warnings (main w writeFile stack) = warningsOf w files
  /\ exists tree,
       generateFolderStructure w = Ok tree
       /\ readme (main w writeFile stack)
          = Some (splice (match readFile w readmePath with
                          | Ok content => content
                          | Throw _ => []
                          end)
                    (renderWorkflowsSection (recordsOf w files))
                    (renderFolderStructureSection tree)).
Proof.
  intros Hf Hd Hr Hw.
  destruct (main_run w writeFile stack files dirs Hf Hd Hr)
    as [tree [content [Ht [Hc [_ Hm]]]]].
  rewrite Hm, Hw. cbn [ended warnings readme]. subst content. eauto.
Qed.

(** X20.  The run ends with exit code 1 exactly in four cases, each with
    the error of the step: the glob walk of the scan is rejected; the
    recursion of [wrapText] exceeds the stack while the table is rendered;
    the glob walks of the folder tree are rejected; the write of
    [README.md] is rejected.  A file that cannot be read or parsed never
    ends the run, and the document has been written exactly when the run
    completes. *)
Theorem main_exits_only_on_rejection_or_overflow (w : World)
    (writeFile : Writer) (stack : nat) :
  (forall e,
     ended (main w writeFile stack) = Exit1 e
     <-> glob w workflowsGlob = Throw e
         \/ (exists workflows,
               fst (scanWorkflows w) = Ok workflows
               /\ rendersWithin stack workflows = false
               /\ e = stackOverflow)
         \/ (exists workflows,
               fst (scanWorkflows w) = Ok workflows
               /\ rendersWithin stack workflows = true
               /\ glob w actionsGlob = Throw e)
         \/ (exists workflows content,
               fst (scanWorkflows w) = Ok workflows
               /\ rendersWithin stack workflows = true
               /\ generateDocumentation w workflows = Ok (Some content)
               /\ writeFile readmePath content = Throw e))
  /\ (readme (main w writeFile stack) = None
      <-> ended (main w writeFile stack) <> Completed).
Proof.
  destruct (glob w workflowsGlob) as [files|e1] eqn:Hf.
  - pose proof (scanWorkflows_Ok w files Hf) as Hscan.
    assert (Hfst : forall workflows,
              fst (scanWorkflows w) = Ok workflows ->
              workflows = recordsOf w files).
    { intros workflows H. rewrite Hscan in H. cbn [fst] in H.
      apply Ok_inj in H. now subst. }
    destruct (rendersWithin stack (recordsOf w files)) eqn:Hr.
    + destruct (glob w actionsGlob) as [dirs|e2] eqn:Hd.
      * destruct (main_run w writeFile stack files dirs Hf Hd Hr)
          as [tree [content [_ [_ [Hg ->]]]]].
        destruct (writeFile readmePath content) as [u|e3] eqn:Hw;
          cbn [ended readme]; split.
        -- intros e. split; [discriminate|].
           intros [H|[[ws [Hs [Hr' _]]]|[[ws [_ [_ H]]]
                      |[ws [c [Hs [_ [Hg' Hw']]]]]]]].
           ++ discriminate.
           ++ apply Hfst in Hs. subst ws. congruence.
           ++ discriminate.
           ++ apply Hfst in Hs. subst ws. rewrite Hg in Hg'.
              apply Ok_inj in Hg'. assert (c = content) by congruence.
              subst c. congruence.
        -- split; [discriminate|congruence].
        -- intros e. split.
           ++ intros H. right. right. right.
              exists (recordsOf w files), content.
              rewrite Hscan. repeat split; [exact Hr|exact Hg|congruence].
           ++ intros [H|[[ws [Hs [Hr' _]]]|[[ws [_ [_ H]]]
                         |[ws [c [Hs [_ [Hg' Hw']]]]]]]].
              ** discriminate.
              ** apply Hfst in Hs. subst ws. congruence.
              ** discriminate.
              ** apply Hfst in Hs. subst ws. rewrite Hg in Hg'.
                 apply Ok_inj in Hg'. assert (c = content) by congruence.
                 subst c. congruence.
        -- split; [discriminate|reflexivity].
      * assert (Hg : forall workflows,
                  generateDocumentation w workflows = Throw e2).
        { intros workflows.
          unfold generateDocumentation, generateFolderStructure, bind.
          now rewrite Hf, Hd. }
        assert (Hm : main w writeFile stack
                     = {| ended := Exit1 e2;
                          warnings := warningsOf w files;
                          readme := None |}).
        { unfold main. rewrite Hscan, Hr. cbn [negb]. now rewrite Hg. }
        rewrite Hm. cbn [ended readme]. split.
        -- intros e. split.
           ++ intros H. right. right. left. exists (recordsOf w files).
              rewrite Hscan. repeat split; [exact Hr|congruence].
           ++ intros [H|[[ws [Hs [Hr' _]]]|[[ws [_ [_ H]]]
                         |[ws [c [_ [_ [Hg' _]]]]]]]].
              ** discriminate.
              ** apply Hfst in Hs. subst ws. congruence.
              ** congruence.
              ** rewrite Hg in Hg'. discriminate.
        -- split; [discriminate|reflexivity].
    + assert (Hm : main w writeFile stack
                   = {| ended := Exit1 stackOverflow;
                        warnings := warningsOf w files;
                        readme := None |}).
      { unfold main. now rewrite Hscan, Hr. }
      rewrite Hm. cbn [ended readme]. split.
      * intros e. split.
        -- intros H. right. left. exists (recordsOf w files).
           rewrite Hscan. repeat split; [exact Hr|congruence].
        -- intros [H|[[ws [_ [_ ->]]]|[[ws [Hs [Hr' _]]]
                      |[ws [c [Hs [Hr' _]]]]]]].
           ++ discriminate.
           ++ reflexivity.
           ++ apply Hfst in Hs. subst ws. congruence.
           ++ apply Hfst in Hs. subst ws. congruence.
      * split; [discriminate|reflexivity].
  - assert (Hm : main w writeFile stack
                 = {| ended := Exit1 e1; warnings := []; readme := None |}).
    { unfold main, scanWorkflows. now rewrite Hf. }
    assert (Hno : forall workflows, fst (scanWorkflows w) <> Ok workflows).
    { intros workflows. unfold scanWorkflows. rewrite Hf. discriminate. }
    rewrite Hm. cbn [ended readme]. split.
    + intros e. split.
      * intros H. left. congruence.
      * intros [H|[[ws [Hs _]]|[[ws [Hs _]]|[ws [c [Hs _]]]]]].
        -- congruence.
        -- now apply Hno in Hs.
        -- now apply Hno in Hs.
        -- now apply Hno in Hs.
    + split; [discriminate|reflexivity].
Qed.

(** ** The cut of the earlier revision *)

(** X21.  A text longer than the limit is cut three code units before the
    limit and given an ellipsis; the result has as many code units as the
    limit says, but three when the limit is smaller than that. *)
Theorem truncateText_cut (text : jsstring) (maxLength : Z) :
  maxLength < JS.length text ->
  truncateText text maxLength
  = firstn (Z.to_nat (maxLength - 3)) text ++ lit "..."
  /\ JS.length (truncateText text maxLength) = Z.max maxLength 3.
Proof.
  intros H. unfold truncateText.
  replace (JS.length text <=? maxLength) with false
    by (symmetry; apply Z.leb_gt; exact H).
  assert (E : substring text 0 (maxLength - 3)
              = firstn (Z.to_nat (maxLength - 3)) text).
  { destruct (Z.le_gt_cases 0 (maxLength - 3)) as [Hp|Hn].
    - rewrite <- (Z2Nat.id (maxLength - 3)) at 1 by exact Hp.
      apply substring_prefix.
    - destruct (maxLength - 3) eqn:Em; try lia.
      unfold substring, clamp. cbn [Z.to_nat].
      rewrite Nat.min_0_l. reflexivity. }
  rewrite E. split; [reflexivity|].
  unfold JS.length in *. rewrite length_app, length_firstn.
  change (List.length (lit "...")) with 3%nat. lia.
Qed.

(** ** The table and the tree *)

Lemma startsWith_before_dot (prefix stem rest : jsstring) :
  ~ In 46%N prefix ->
  startsWith (stem ++ 46%N :: rest) prefix = startsWith stem prefix.
Proof.
  revert stem; induction prefix as [|c prefix IH]; intros stem H.
  - now rewrite !startsWith_nil.
  - destruct stem as [|d stem]; cbn [app startsWith].
    + replace (N.eqb c 46) with false; [reflexivity|].
      symmetry. apply N.eqb_neq. intros ->. apply H. now left.
    + rewrite IH; [reflexivity|]. intros Hin. apply H. now right.
Qed.

Lemma categoryAmong_before_dot (mappings : list Mapping)
    (stem rest : jsstring) :
  forallb (fun m => forallb (fun p => negb (existsb (N.eqb 46) p))
                      (prefixes m)) mappings = true ->
  categoryAmong mappings (stem ++ 46%N :: rest) = categoryAmong mappings stem.
Proof.
  induction mappings as [|m mappings IH]; [reflexivity|].
  cbn [forallb categoryAmong]. intros H.
  apply andb_true_iff in H as [Hm Hrest].
  assert (E : mappingMatches (stem ++ 46%N :: rest) m = mappingMatches stem m).
  { unfold mappingMatches. induction (prefixes m) as [|p ps IHp];
      [reflexivity|].
    cbn [forallb] in Hm. apply andb_true_iff in Hm as [Hp Hps].
    cbn [existsb]. rewrite IHp by exact Hps. f_equal.
    apply startsWith_before_dot. intros Hin.
    apply negb_true_iff in Hp.
    assert (existsb (N.eqb 46) p = true)
      by (apply existsb_exists; exists 46%N; split;
          [exact Hin|apply N.eqb_refl]).
    congruence. }
  rewrite E, IH by exact Hrest. reflexivity.
Qed.

Lemma indexOf_absent (s pat : jsstring) :
  (forall n, startsWith (skipn n s) pat = false) -> indexOf s pat = -1.
Proof.
  intros H. unfold indexOf.
  destruct (indexOf_from_spec pat s 0) as [[Hr _]|[n [_ [_ [Hm _]]]]];
    [exact Hr|].
  rewrite H in Hm. discriminate.
Qed.

Lemma replace_absent (s pat repl : jsstring) :
  indexOf s pat = -1 -> replace s pat repl = s.
Proof. intros H. unfold replace. now rewrite H. Qed.

Lemma replace_first (a pat repl : jsstring) :
  (forall m, (m < List.length a)%nat ->
             startsWith (skipn m (a ++ pat)) pat = false) ->
  replace (a ++ pat) pat repl = a ++ repl.
Proof.
  intros Hmin. unfold replace.
  assert (E : indexOf (a ++ pat) pat = JS.length a).
  { rewrite <- (app_nil_r pat) at 1. now apply indexOf_first. }
  rewrite E. unfold JS.length.
  replace (Z.of_nat (List.length a) =? -1) with false
    by (symmetry; apply Z.eqb_neq; lia).
  rewrite <- Nat2Z.inj_add, substring_prefix, substringFrom_suffix.
  rewrite firstn_app, Nat.sub_diag, firstn_all. cbn [firstn].
  rewrite app_nil_r. f_equal.
  rewrite skipn_all2 by (rewrite length_app; lia). apply app_nil_r.
Qed.

(** A window that opens inside a dot-free stem does not begin with a
    dot. *)
Lemma dotless_window (stem rest pat : jsstring) (m : nat) :
  ~ In 46%N stem -> (m < List.length stem)%nat ->
  startsWith (skipn m (stem ++ rest)) (46%N :: pat) = false.
Proof.
  intros Hdot Hm. rewrite skipn_app.
  replace (m - List.length stem)%nat with 0%nat by lia. cbn [skipn].
  destruct (skipn m stem) as [|d tl] eqn:E.
  - apply (f_equal (@List.length N)) in E. rewrite length_skipn in E.
    cbn [List.length] in E. lia.
  - cbn [app startsWith].
    replace (N.eqb 46 d) with false; [reflexivity|].
    symmetry. apply N.eqb_neq. intros <-. apply Hdot.
    rewrite <- (firstn_skipn m stem), E. apply in_or_app. right. now left.
Qed.

Lemma filenameOf_stem (workflow : Workflow) (dir stem ext : jsstring) :
  filePath workflow = dir ++ 47%N :: stem ++ ext ->
  ext = lit ".yml" \/ ext = lit ".yaml" ->
  (forall c, In c stem -> c <> 46%N /\ c <> 47%N /\ c <> 92%N) ->
  filenameOf workflow = stem
  /\ Path.basename (filePath workflow) None = stem ++ ext.
Proof.
  intros Hpath Hext Hstem.
  assert (Hdot : ~ In 46%N stem) by (intros H; now apply Hstem in H).
  assert (Hfree : forall sep,
            (forall c, sep c = true -> c = 47%N \/ c = 92%N) ->
            existsb sep (stem ++ ext) = false).
  { intros sep Hsep. destruct (existsb sep (stem ++ ext)) eqn:E;
      [|reflexivity].
    apply existsb_exists in E as [c [Hin Hc]]. apply Hsep in Hc.
    apply in_app_or in Hin as [Hin|Hin].
    - apply Hstem in Hin. destruct Hc; tauto.
    - destruct Hext as [-> | ->]; vm_compute in Hin;
        repeat (destruct Hin as [<-|Hin]; [destruct Hc; discriminate|]);
        contradiction. }
  assert (Hsep : existsb isPathSeparator (stem ++ ext) = false).
  { apply Hfree. unfold isPathSeparator. intros c H.
    apply orb_true_iff in H as [H|H]; apply N.eqb_eq in H; auto. }
  assert (Hslash : existsb Path.isSlash (stem ++ ext) = false).
  { apply Hfree. unfold Path.isSlash. intros c H.
    apply N.eqb_eq in H; auto. }
  split.
  - unfold filenameOf. rewrite Hpath.
    destruct (splitBy_last isPathSeparator 47 (stem ++ ext) dir eq_refl Hsep)
      as [init [-> _]].
    rewrite last_last.
    assert (E : replace (replace (stem ++ ext) (lit ".yml") []) (lit ".yaml") []
                = stem).
    { destruct Hext as [-> | ->].
      - rewrite (replace_first stem (lit ".yml") [])
          by (intros m Hm; now apply dotless_window).
        rewrite app_nil_r. apply replace_absent, indexOf_absent.
        intros n. destruct (Nat.lt_ge_cases n (List.length stem)) as [Hn|Hn].
        + rewrite <- (app_nil_r stem) at 1. now apply dotless_window.
        + rewrite skipn_all2 by exact Hn. reflexivity.
      - rewrite (replace_absent (stem ++ lit ".yaml") (lit ".yml")).
        + rewrite (replace_first stem (lit ".yaml") [])
            by (intros m Hm; now apply dotless_window).
          apply app_nil_r.
        + apply indexOf_absent. intros n.
          destruct (Nat.lt_ge_cases n (List.length stem)) as [Hn|Hn].
          * now apply dotless_window.
          * rewrite skipn_app, (skipn_all2 stem) by exact Hn.
            cbn [app]. generalize (n - List.length stem)%nat. intros k.
            do 6 (destruct k as [|k]; [reflexivity|]). reflexivity. }
    etransitivity; [exact (f_equal (fun s => or_else s []) E)|].
    now destruct stem.
  - rewrite Hpath. cbn [Path.basename]. apply lastPortion_file; [|exact Hslash].
    destruct Hext as [-> | ->]; now destruct stem.
Qed.

(** X22.  The table and the folder tree file a workflow under the same
    category and icon, although the tree classifies the file name with its
    extension and the table the name without it, as long as the name
    before the extension holds no dot and no separator. *)
Theorem table_and_tree_agree (workflow : Workflow) (dir stem ext : jsstring) :
  filePath workflow = dir ++ 47%N :: stem ++ ext ->
  ext = lit ".yml" \/ ext = lit ".yaml" ->
  (forall c, In c stem -> c <> 46%N /\ c <> 47%N /\ c <> 92%N) ->
  categorizeWorkflow workflow
  = getCategoryByFilename (Path.basename (filePath workflow) None).
Proof.
  intros Hpath Hext Hstem.
  destruct (filenameOf_stem workflow dir stem ext Hpath Hext Hstem)
    as [E1 E2].
  unfold categorizeWorkflow. rewrite E1.
  etransitivity;
    [|exact (f_equal getCategoryByFilename (eq_sym E2))].
  unfold getCategoryByFilename. symmetry.
  destruct Hext as [-> | ->]; apply categoryAmong_before_dot; reflexivity.
Qed.

(** ** The rows of the table *)

Lemma lineFeedFree_app (a b : jsstring) :
  existsb (N.eqb 10) (a ++ b) = existsb (N.eqb 10) a || existsb (N.eqb 10) b.
Proof. apply existsb_app. Qed.

Lemma lineFeedFree_In (s : jsstring) :
  existsb (N.eqb 10) s = false <-> ~ In 10%N s.
Proof.
  split.
  - intros H Hin.
    assert (existsb (N.eqb 10) s = true)
      by (apply existsb_exists; exists 10%N; split; [exact Hin|reflexivity]).
    congruence.
  - intros H. destruct (existsb (N.eqb 10) s) eqn:E; [|reflexivity].
    apply existsb_exists in E as [c [Hin Hc]]. apply N.eqb_eq in Hc.
    subst c. contradiction.
Qed.

Lemma laidOut_lineFeedFree (segments : list (jsstring * bool))
    (final : jsstring) :
  existsb (N.eqb 10) (original segments final) = false ->
  existsb (N.eqb 10) (laidOut segments final) = false.
Proof.
  induction segments as [|[seg atSpace] segments IH];
    cbn [original laidOut]; [auto|].
  rewrite !lineFeedFree_app. intros H.
  apply orb_false_iff in H as [Hseg H]. apply orb_false_iff in H as [_ H].
  rewrite Hseg, (IH H). reflexivity.
Qed.

Lemma wrapped_lineFeedFree (text : jsstring) (n : Z) :
  0 < n -> existsb (N.eqb 10) text = false ->
  existsb (N.eqb 10) (wrapped text n) = false.
Proof.
  intros Hn H.
  destruct (wrapText_fuel_spec n Hn (S (List.length text)) text)
    as [segments [final [H1 [H2 _]]]]; [lia|].
  unfold wrapped, wrapText. rewrite H1. apply laidOut_lineFeedFree.
  now rewrite H2.
Qed.

Lemma formatStackedWorkflowDetails_lineFeedFree (columns : value) :
  (forall key, In key (objectKeys columns) -> ~ In 10%N key) ->
  existsb (N.eqb 10) (formatStackedWorkflowDetails columns) = false.
Proof.
  intros H. unfold formatStackedWorkflowDetails.
  destruct (negb (truthy columns)
            || (List.length (objectKeys columns) =? 0)%nat); [reflexivity|].
  induction (objectKeys columns) as [|key keys IH]; [reflexivity|].
  assert (Hkey : existsb (N.eqb 10) (backticked key) = false).
  { unfold backticked. rewrite !lineFeedFree_app.
    replace (existsb (N.eqb 10) key) with false; [reflexivity|].
    symmetry. apply lineFeedFree_In, H. now left. }
  assert (Hkeys : existsb (N.eqb 10) (join br (map backticked keys)) = false).
  { apply IH. intros k Hk. apply H. now right. }
  destruct keys as [|key' keys]; [exact Hkey|].
  change (join br (map backticked (key :: key' :: keys)))
    with (backticked key ++ br ++ join br (map backticked (key' :: keys))).
  rewrite !lineFeedFree_app, Hkey, Hkeys. reflexivity.
Qed.

Lemma replaceAllChar_lineFeedFree (s : jsstring) :
  existsb (N.eqb 10) (replaceAllChar s 92 47) = existsb (N.eqb 10) s.
Proof.
  induction s as [|c s IH]; [reflexivity|].
  cbn [replaceAllChar map existsb]. fold (replaceAllChar s 92 47).
  rewrite IH. f_equal. destruct (N.eqb c 92) eqn:E; [|reflexivity].
  apply N.eqb_eq in E. now subst c.
Qed.

(** X23.  A table row is one line: when the name, the description, the
    path and the parameter keys of a record hold no line feed, its row
    holds exactly one, at its end. *)
Theorem tableRow_single_line (workflow : Workflow) :
  ~ In 10%N (name workflow) ->
  ~ In 10%N (description workflow) ->
  ~ In 10%N (filePath workflow) ->
  (forall key,
     In key (objectKeys (inputs workflow) ++ objectKeys (outputs workflow)
             ++ objectKeys (secrets workflow)) ->
     ~ In 10%N key) ->
  exists row, tableRow workflow = row ++ nl /\ ~ In 10%N row.
Proof.
  intros Hname Hdesc Hpath Hkeys.
  apply lineFeedFree_In in Hname, Hdesc, Hpath.
  assert (Hin : existsb (N.eqb 10)
                  (formatStackedWorkflowDetails (inputs workflow)) = false).
  { apply formatStackedWorkflowDetails_lineFeedFree. intros k Hk.
    apply Hkeys. apply in_or_app. now left. }
  assert (Hout : existsb (N.eqb 10)
                   (formatStackedWorkflowDetails (outputs workflow)) = false).
  { apply formatStackedWorkflowDetails_lineFeedFree. intros k Hk.
    apply Hkeys. apply in_or_app. right. apply in_or_app. now left. }
  assert (Hsec : existsb (N.eqb 10)
                   (formatStackedWorkflowDetails (secrets workflow)) = false).
  { apply formatStackedWorkflowDetails_lineFeedFree. intros k Hk.
    apply Hkeys. apply in_or_app. right. apply in_or_app. now right. }
  pose proof (wrapped_lineFeedFree (name workflow) 25 eq_refl Hname) as Hwn.
  pose proof (replaceAllChar_lineFeedFree (filePath workflow)) as Hlink.
  rewrite Hpath in Hlink.
  unfold tableRow. cbv zeta.
  match goal with
  | |- context [lit "** | " ++ ?cell ++ _] =>
      assert (Hcell : existsb (N.eqb 10) cell = false);
      [|revert Hin Hout Hsec Hcell Hwn Hlink; generalize cell]
  end.
  { destruct (JS.truthy (description workflow)
              && negb (JS.eqb (description workflow) noDescription));
      [|reflexivity].
    apply wrapped_lineFeedFree; [lia|exact Hdesc]. }
  generalize (wrapped (name workflow) 25),
             (replaceAllChar (filePath workflow) 92 47),
             (formatStackedWorkflowDetails (inputs workflow)),
             (formatStackedWorkflowDetails (outputs workflow)),
             (formatStackedWorkflowDetails (secrets workflow)).
  intros n p i o s d Hin Hout Hsec Hcell Hwn Hlink.
  exists (lit "| **" ++ (lit "[" ++ n ++ lit "](./" ++ p ++ lit ")")
          ++ lit "** | " ++ d ++ lit " | " ++ i ++ lit " | " ++ o
          ++ lit " | " ++ s ++ lit " |").
  split.
  - generalize (lit "| **"), (lit "[" ++ n ++ lit "](./" ++ p ++ lit ")"),
               (lit "** | "), (lit " | "), (lit " |").
    intros a b c e f. now rewrite <- !app_assoc.
  - apply lineFeedFree_In. rewrite !lineFeedFree_app.
    rewrite Hin, Hout, Hsec, Hcell, Hwn, Hlink. reflexivity.
Qed.

(** ** The further properties on concrete inputs *)

(** X4 on [deploy-prod.yml] with a title and the trigger
    [workflow_call]. *)
Lemma isReusable_iff_workflow_call_witness :
  exists info,
    tryFile (deployProdRepository (titled (lit "Deploy") callable))
      deployProdPath = Ok info
    /\ (truthy (isReusable info) = true
        <-> exists triggers,
              lookup (lit "on")
                [(lit "name", VString (lit "Deploy")); (lit "on", callable)]
              = VObject triggers
              /\ existsb (fun kv => JS.eqb (fst kv) (lit "workflow_call"))
                   triggers = true).
Proof.
  destruct (tryFile (deployProdRepository (titled (lit "Deploy") callable))
              deployProdPath) as [info|e] eqn:E;
    [|vm_compute in E; discriminate].
  exists info. split; [reflexivity|].
  apply (isReusable_iff_workflow_call
           (deployProdRepository (titled (lit "Deploy") callable))
           deployProdPath deployProdContent);
    [reflexivity|reflexivity|exact E].
Defined.

(** X5 on the same file with the trigger section [on: push]. *)
Lemma scalar_trigger_fails_witness :
  exists e,
    tryFile (deployProdRepository
               (titled (lit "CI") (VString (lit "push"))))
      deployProdPath = Throw e
    /\ snd (scanStep (deployProdRepository
                        (titled (lit "CI") (VString (lit "push"))))
              ([], []) deployProdPath)
       = [FailedToParse deployProdPath e].
Proof.
  apply (scalar_trigger_fails
           (deployProdRepository (titled (lit "CI") (VString (lit "push"))))
           deployProdPath deployProdContent (lit "CI")
           [(lit "name", VString (lit "CI"));
            (lit "on", VString (lit "push"))]).
  - reflexivity.
  - reflexivity.
  - reflexivity.
  - reflexivity.
  - intros triggers H. vm_compute in H. discriminate.
  - intros items H. vm_compute in H. discriminate.
Defined.

(** X6 on the six files, of which the third fails. *)
Lemma scanWorkflows_in_order_witness :
  map filePath (recordsOf sixFiles sixPaths)
  = filter (fun p => negb (fails sixFiles p)) sixPaths
  /\ map warningPath (snd (scanWorkflows sixFiles))
     = filter (fails sixFiles) sixPaths
  /\ Forall (fun r => fileName r = Path.basename (filePath r) None)
       (recordsOf sixFiles sixPaths).
Proof.
  apply (scanWorkflows_in_order sixFiles sixPaths); reflexivity.
Defined.

(** X9 on a mapping of two parameters. *)
Lemma formatStackedWorkflowDetails_keys_witness :
  split (formatStackedWorkflowDetails parameters) br
  = [lit "`node-version`"; lit "`cache`"].
Proof.
  apply (formatStackedWorkflowDetails_keys parameters).
  - reflexivity.
  - discriminate.
  - repeat constructor; intros H; vm_compute in H;
      repeat (destruct H as [H|H]; [discriminate H|]); exact H.
Defined.

(** X14 on a repository without workflow files and action directories. *)
Lemma generateFolderStructure_outcome_witness :
  exists body,
    emptyTree = lit "```" ++ nl ++ lit ".github/" ++ nl ++ body ++ lit "```".
Proof.
  apply (proj2 (generateFolderStructure_outcome (emptyRepository []))).
  reflexivity.
Defined.

(** X15 on a repository with two workflow files and two action
    directories: the file that cannot be read has its line too. *)
Lemma folderTree_lists_every_workflow_witness :
  exists tree,
    generateFolderStructure withActions = Ok tree
    /\ exists pre connector post,
         (connector = tee \/ connector = elbow)
         /\ tree = pre ++ fileLine withActions connector testUnitPath ++ post.
Proof.
  destruct (generateFolderStructure withActions) as [tree|e] eqn:E;
    [|vm_compute in E; discriminate].
  exists tree. split; [reflexivity|].
  apply (folderTree_lists_every_workflow withActions
           [testUnitPath; deployProdPath] [setupNodeDir; cacheDir]);
    [reflexivity|reflexivity|exact E|now left].
Defined.

(** X16 on a repository whose only entry is one workflow file. *)
Lemma folderTree_terminal_connector_witness :
  exists tree,
    generateFolderStructure (deployProdRepository VNull) = Ok tree
    /\ exists pre post,
         tree = pre
                ++ fileLine (deployProdRepository VNull) elbow deployProdPath
                ++ post.
Proof.
  destruct (generateFolderStructure (deployProdRepository VNull))
    as [tree|e] eqn:E; [|vm_compute in E; discriminate].
  exists tree. split; [reflexivity|].
  apply (folderTree_terminal_connector (deployProdRepository VNull)
           [deployProdPath] [] tree deployProdPath [] []);
    [reflexivity|reflexivity|exact E|reflexivity].
Defined.

(** X17 on the last of two action directories. *)
Lemma folderTree_lists_every_action_witness :
  exists tree,
    generateFolderStructure withActions = Ok tree
    /\ exists pre post, tree = pre ++ actionBlock true cacheDir ++ post.
Proof.
  destruct (generateFolderStructure withActions) as [tree|e] eqn:E;
    [|vm_compute in E; discriminate].
  exists tree. split; [reflexivity|].
  apply (folderTree_lists_every_action withActions
           [testUnitPath; deployProdPath] [setupNodeDir] [] tree cacheDir);
    [reflexivity|reflexivity|exact E|discriminate].
Defined.

(** X18 on a repository without [README.md]. *)
Lemma generateDocumentation_starts_fresh_witness :
  exists tree,
    generateFolderStructure (deployProdRepository VNull) = Ok tree
    /\ generateDocumentation (deployProdRepository VNull) [deployProdRecord]
       = Ok (Some (generatedBlock (renderWorkflowsSection [deployProdRecord])
                     (renderFolderStructureSection tree))).
Proof.
  destruct (generateFolderStructure (deployProdRepository VNull))
    as [tree|e] eqn:E; [|vm_compute in E; discriminate].
  exists tree. split; [reflexivity|].
  apply (generateDocumentation_starts_fresh (deployProdRepository VNull)
           [deployProdRecord] tree); [|exact E].
  intros content H. vm_compute in H. discriminate.
Defined.

(** X19 on the six files and a stack of a hundred calls: the run
    completes with one warning. *)
Lemma main_completes_witness :
  ended (main sixFiles writable 100) = Completed
  /\ warnings (main sixFiles writable 100) = warningsOf sixFiles sixPaths
  /\ exists tree,
       generateFolderStructure sixFiles = Ok tree
       /\ readme (main sixFiles writable 100)
          = Some (splice (match readFile sixFiles readmePath with
                          | Ok content => content
                          | Throw _ => []
                          end)
                    (renderWorkflowsSection (recordsOf sixFiles sixPaths))
                    (renderFolderStructureSection tree)).
Proof.
  apply (main_completes sixFiles writable 100 sixPaths []); reflexivity.
Defined.

(** X21 on a title of 28 code units and the limit 10. *)
Lemma truncateText_cut_witness :
  truncateText (lit "Reusable deployment pipeline") 10 = lit "Reusabl..."
  /\ JS.length (truncateText (lit "Reusable deployment pipeline") 10) = 10.
Proof.
  apply (truncateText_cut (lit "Reusable deployment pipeline") 10).
  reflexivity.
Defined.

(** X22 on [deploy-prod.yml]. *)
Lemma table_and_tree_agree_witness :
  categorizeWorkflow deployProdRecord
  = getCategoryByFilename (Path.basename (filePath deployProdRecord) None).
Proof.
  apply (table_and_tree_agree deployProdRecord (lit ".github/workflows")
           (lit "deploy-prod") (lit ".yml")).
  - reflexivity.
  - now left.
  - intros c H. vm_compute in H.
    repeat (destruct H as [<-|H]; [repeat split; discriminate|]).
    destruct H.
Defined.

(** X23 on the record of [deploy-prod.yml]. *)
Lemma tableRow_single_line_witness :
  exists row, tableRow deployProdRecord = row ++ nl /\ ~ In 10%N row.
Proof.
  apply (tableRow_single_line deployProdRecord).
  - apply lineFeedFree_In. reflexivity.
  - apply lineFeedFree_In. reflexivity.
  - apply lineFeedFree_In. reflexivity.
  - intros key H. apply lineFeedFree_In. vm_compute in H.
    repeat (destruct H as [<-|H]; [reflexivity|]). destruct H.
Defined.
